(** * An in-memory organisational model: employees, buildings, companies

    Shallow embedding of [Q3.py] (the richest of the three variants; the
    [Employee], [Building] and [Company] classes of [Q2.py] are textually the
    same as the ones embedded here, and [Q1.py] is a subset of them).

    Conventions of the embedding.
    - A Python object with private attributes is a record; the field that
      holds [self.__x] of class [C] carries Python's mangled name [C__x], and
      the read-only property [x] of the class is the function [C_x].
    - A method that mutates [self] returns the new state of the object; a
      method that may raise returns a [result].
    - Ids and incomes are Python [int]s (the drivers construct every employee
      with an [int] income), modelled as [Z]; [str] of an [int] is its
      decimal rendering.  Arithmetic and comparison of IEEE floating point
      values are outside the model; the area of a building, which the
      program only stores and prints, may be a float (see [pynum]).
    - An Employee never changes after its construction, so the object is
      identified with its three attributes, and membership in a list stands
      for membership by identity.
    - In the records each Building of a ConstructionCompany carries its
      own employee list.  Buildings that share one list object (two
      buildings constructed on one list, one building added twice) are the
      subject of the store at the end of the definitions, where
      [assign_employee_to_building] is written again on list objects. *)

From Stdlib Require Import ZArith String Ascii.
From stdpp Require Import base list strings pretty sorting gmap.

Open Scope Z_scope.

(** ** Python values that the embedded code distinguishes *)

Inductive BuildingType : Type :=
  | WAREHOUSE
  | DISTRIBUTION_CENTER
  | FLEX_SPACE
  | MANUFACTURING_BUILDING.

Inductive ConstructionCompanyType : Type :=
  | GENERAL_CONTRACTOR
  | SUBCONTRACTOR
  | CONSTRUCTION_MANAGER.

Global Instance BuildingType_eq_dec : EqDecision BuildingType.
Proof. solve_decision. Defined.

Global Instance ConstructionCompanyType_eq_dec : EqDecision ConstructionCompanyType.
Proof. solve_decision. Defined.

(** [member.name] of an [Enum] member. *)
Definition BuildingType_name (t : BuildingType) : string :=
  match t with
  | WAREHOUSE => "WAREHOUSE"
  | DISTRIBUTION_CENTER => "DISTRIBUTION_CENTER"
  | FLEX_SPACE => "FLEX_SPACE"
  | MANUFACTURING_BUILDING => "MANUFACTURING_BUILDING"
  end.

(** [member.value] of an [Enum] member. *)
Definition BuildingType_value (t : BuildingType) : Z :=
  match t with
  | WAREHOUSE => 1
  | DISTRIBUTION_CENTER => 2
  | FLEX_SPACE => 3
  | MANUFACTURING_BUILDING => 4
  end.

Definition ConstructionCompanyType_name (t : ConstructionCompanyType) : string :=
  match t with
  | GENERAL_CONTRACTOR => "GENERAL_CONTRACTOR"
  | SUBCONTRACTOR => "SUBCONTRACTOR"
  | CONSTRUCTION_MANAGER => "CONSTRUCTION_MANAGER"
  end.

(** The dynamically typed values that meet at the [==] of
    [assign_employee_to_building] and as keys of the dictionary built by
    [get_building_by_type]: a [str] or a member of [BuildingType]. *)
Inductive pyobj : Type :=
  | PyStr (s : string)
  | PyEnum (t : BuildingType).

Global Instance pyobj_eq_dec : EqDecision pyobj.
Proof. solve_decision. Defined.

(** Python's [a == b].  [str.__eq__] answers [NotImplemented] for a
    non-[str] operand and a plain [Enum] member compares by identity, so a
    [str] never equals an [Enum] member. *)
Definition py_eq (a b : pyobj) : bool :=
  match a, b with
  | PyStr s, PyStr s' => bool_decide (s = s')
  | PyEnum t, PyEnum t' => bool_decide (t = t')
  | PyStr _, PyEnum _ => false
  | PyEnum _, PyStr _ => false
  end.

(** A number that the program stores and prints but never computes with.
    A [float] is carried by the text that [repr] gives for it: the area
    [2500.0] of the drivers is [PyFloat "2500.0"]. *)
Inductive pynum : Type :=
  | PyInt (n : Z)
  | PyFloat (repr : string).

(** Python's [str(x)], as used by the f-strings. *)
Definition str_int (n : Z) : string := pretty n.

Definition str_num (x : pynum) : string :=
  match x with
  | PyInt n => str_int n
  | PyFloat repr => repr
  end.

Definition str_pyobj (x : pyobj) : string :=
  match x with
  | PyStr s => s
  | PyEnum t => "BuildingType." +:+ BuildingType_name t
  end.

(** The line feed character written [\n] in the Python source. *)
Definition LF : ascii := Ascii.ascii_of_nat 10.
Definition NL : string := String LF EmptyString.

(** [sep.join(parts)]. *)
Fixpoint join (sep : string) (parts : list string) : string :=
  match parts with
  | [] => ""
  | [p] => p
  | p :: rest => p +:+ sep +:+ join sep rest
  end.

(** ** Exceptions *)

Inductive exn : Type :=
  | ValueError (msg : string).

Inductive result (A : Type) : Type :=
  | Return (a : A)
  | Raise (e : exn).

Arguments Return {A} a.
Arguments Raise {A} e.

(** ** The built-in [sorted(xs, key=..., reverse=True)]

    Python documents [sorted] as stable, and [reverse=True] as sorting into
    descending key order while keeping the original order of elements with
    equal keys.  The built-in is modelled by the stable insertion sort below:
    an element goes in front of the first element whose key is not larger.
    The keys are integers: on keys that [<] orders linearly the result of a
    stable sort is determined, whatever the algorithm.  Keys that are not
    ordered, such as a float NaN among the incomes, are outside this
    definition, and so are all statements about the top five. *)

Section Sorted.
Context {A : Type} (key : A → Z).

Fixpoint insert_reverse (x : A) (l : list A) : list A :=
  match l with
  | [] => [x]
  | y :: l' =>
      if bool_decide (key y ≤ key x) then x :: y :: l'
      else y :: insert_reverse x l'
  end.

Definition sorted_reverse (xs : list A) : list A :=
  foldr insert_reverse [] xs.

(** [descending a b]: in descending key order [a] may stand in front of
    [b]. *)
Definition descending (a b : A) : Prop := key b ≤ key a.
End Sorted.

(** The distinct elements of a list, in the order of their first
    occurrence: the order in which a [dict] filled from the list holds
    its keys. *)
Fixpoint first_seen {A : Type} `{!EqDecision A} (l : list A) : list A :=
  match l with
  | [] => []
  | x :: l' => x :: filter (λ y, y ≠ x) (first_seen l')
  end.

(** ** class Employee *)

Record Employee : Type := mkEmployee {
  Employee__employee_id : Z;
  Employee__employee_name : string;
  Employee__annual_income : Z
}.

Global Instance Employee_eq_dec : EqDecision Employee.
Proof. solve_decision. Defined.

Definition employee_id (self : Employee) : Z := Employee__employee_id self.
Definition employee_name (self : Employee) : string := Employee__employee_name self.
Definition annual_income (self : Employee) : Z := Employee__annual_income self.

Definition Employee_display (self : Employee) : string :=
  "ID: " +:+ str_int (Employee__employee_id self) +:+
  ", Name: " +:+ Employee__employee_name self +:+
  ", Income: $" +:+ str_int (Employee__annual_income self).

(** The exception of a failed lookup by id:
    [ValueError(f"Employee with ID {employee_id} not found")]. *)
Definition employee_not_found (id : Z) : exn :=
  ValueError ("Employee with ID " +:+ str_int id +:+ " not found").

(** The loop shared, text for text, by [Building.get_employee] and
    [Company.get_employee]. *)
Fixpoint get_employee_loop (employees : list Employee) (id : Z) : result Employee :=
  match employees with
  | [] => Raise (employee_not_found id)
  | employee :: rest =>
      if bool_decide (employee_id employee = id) then Return employee
      else get_employee_loop rest id
  end.

(** The comprehension shared, text for text, by [Building.remove_employee]
    and [Company.remove_employee]:
    [[e for e in employees if e.employee_name != name]]. *)
Definition employees_not_named (employees : list Employee) (name : string)
    : list Employee :=
  filter (λ e, employee_name e ≠ name) employees.

(** ** class Building *)

Record Building : Type := mkBuilding {
  Building__building_name : string;
  Building__area : pynum;
  Building__building_type : BuildingType;
  Building__employees : list Employee
}.

Definition Building_display (self : Building) : string :=
  let employee_info := join NL (map Employee_display (Building__employees self)) in
  "Building Name: " +:+ Building__building_name self +:+
  ", Area: " +:+ str_num (Building__area self) +:+
  ", Type: " +:+ BuildingType_name (Building__building_type self) +:+
  NL +:+ "Employees:" +:+ NL +:+ employee_info.

Definition Building_add_employee (self : Building) (employee : Employee) : Building :=
  mkBuilding (Building__building_name self) (Building__area self)
    (Building__building_type self) (Building__employees self ++ [employee]).

Definition Building_remove_employee (self : Building) (name : string) : Building :=
  mkBuilding (Building__building_name self) (Building__area self)
    (Building__building_type self)
    (employees_not_named (Building__employees self) name).

Definition Building_get_top_five_employees (self : Building) : list Employee :=
  let sorted_employees := sorted_reverse annual_income (Building__employees self) in
  take 5 sorted_employees.

Definition Building_get_employee (self : Building) (id : Z) : result Employee :=
  get_employee_loop (Building__employees self) id.

Definition Building_building_name (self : Building) : string := Building__building_name self.
Definition Building_area (self : Building) : pynum := Building__area self.
Definition Building_building_type (self : Building) : pyobj :=
  PyStr (BuildingType_name (Building__building_type self)).
Definition Building_employees (self : Building) : list Employee := Building__employees self.

(** ** class Company *)

Record Company : Type := mkCompany {
  Company__company_name : string;
  Company__employees : list Employee
}.

Definition Company_display (self : Company) : string :=
  let employee_info := join NL (map Employee_display (Company__employees self)) in
  "Company Name: " +:+ Company__company_name self +:+
  NL +:+ "Employees:" +:+ NL +:+ employee_info.

Definition Company_add_employee (self : Company) (employee : Employee) : Company :=
  mkCompany (Company__company_name self) (Company__employees self ++ [employee]).

Definition Company_remove_employee (self : Company) (name : string) : Company :=
  mkCompany (Company__company_name self)
    (employees_not_named (Company__employees self) name).

Definition Company_get_top_five_employees (self : Company) : list Employee :=
  let sorted_employees := sorted_reverse annual_income (Company__employees self) in
  take 5 sorted_employees.

Definition Company_get_employee (self : Company) (id : Z) : result Employee :=
  get_employee_loop (Company__employees self) id.

Definition Company_company_name (self : Company) : string := Company__company_name self.
Definition Company_employees (self : Company) : list Employee := Company__employees self.

(** ** The dictionary built by [get_building_by_type]

    A Python [dict] keeps its keys in insertion order, and the order is part
    of what the method returns, so the dictionary is an association list in
    insertion order; keys are compared with [==]. *)

Section Dict.
Context {V : Type}.

(** [k in d] *)
Definition dict_contains (d : list (pyobj * V)) (k : pyobj) : bool :=
  existsb (λ kv, py_eq kv.1 k) d.

(** [d[k] = v]: a new key goes last, an old key keeps its place. *)
Fixpoint dict_setitem (d : list (pyobj * V)) (k : pyobj) (v : V) : list (pyobj * V) :=
  match d with
  | [] => [(k, v)]
  | (k', v') :: d' =>
      if py_eq k' k then (k', v) :: d' else (k', v') :: dict_setitem d' k v
  end.

(** [d[k]]; [None] stands for [KeyError]. *)
Fixpoint dict_getitem (d : list (pyobj * V)) (k : pyobj) : option V :=
  match d with
  | [] => None
  | (k', v') :: d' => if py_eq k' k then Some v' else dict_getitem d' k
  end.

(** [f(d[k])] for an [f] that mutates the value object in place. *)
Fixpoint dict_mutate (d : list (pyobj * V)) (k : pyobj) (f : V → V) : list (pyobj * V) :=
  match d with
  | [] => []
  | (k', v') :: d' =>
      if py_eq k' k then (k', f v') :: d' else (k', v') :: dict_mutate d' k f
  end.
End Dict.

(** ** class ConstructionCompany *)

Record ConstructionCompany : Type := mkConstructionCompany {
  ConstructionCompany__company_name : string;
  ConstructionCompany__category : ConstructionCompanyType;
  ConstructionCompany__buildings : list Building
}.

(** [ConstructionCompany(company_name, category)]: no building yet. *)
Definition ConstructionCompany_init (company_name : string)
    (category : ConstructionCompanyType) : ConstructionCompany :=
  mkConstructionCompany company_name category [].

Definition ConstructionCompany_add_building (self : ConstructionCompany)
    (building : Building) : ConstructionCompany :=
  mkConstructionCompany (ConstructionCompany__company_name self)
    (ConstructionCompany__category self)
    (ConstructionCompany__buildings self ++ [building]).

(** One turn of the [for building in self.__buildings] loop of
    [get_building_by_type]. *)
Definition get_building_by_type_step (buildings_by_type : list (pyobj * list Building))
    (building : Building) : list (pyobj * list Building) :=
  if negb (dict_contains buildings_by_type (Building_building_type building))
  then dict_setitem buildings_by_type (Building_building_type building) [building]
  else dict_mutate buildings_by_type (Building_building_type building)
         (λ group, group ++ [building]).

Definition ConstructionCompany_get_building_by_type (self : ConstructionCompany)
    : list (pyobj * list Building) :=
  foldl get_building_by_type_step [] (ConstructionCompany__buildings self).

(** The property [employees]: computed from the buildings at every read. *)
Definition ConstructionCompany_employees (self : ConstructionCompany) : list Employee :=
  foldl (λ all_employees building, all_employees ++ Building_employees building)
    [] (ConstructionCompany__buildings self).

(** The exception of a failed placement:
    [ValueError(f"No building of type {building_type} found")]. *)
Definition building_not_found (building_type : pyobj) : exn :=
  ValueError ("No building of type " +:+ str_pyobj building_type +:+ " found").

(** [next((x for x in xs if P x), None)] *)
Definition next_or_None {A : Type} (P : A → Prop) `{!∀ x, Decision (P x)}
    (xs : list A) : option A :=
  head (filter P xs).

(** The [for building in self.__buildings] loop of
    [assign_employee_to_building]: [Some] of the buildings after the
    [add_employee] when the loop returns, [None] when it runs to its end. *)
Fixpoint assign_loop (buildings : list Building) (employee : Employee)
    (building_type : pyobj) : option (list Building) :=
  match buildings with
  | [] => None
  | building :: rest =>
      if py_eq (Building_building_type building) building_type
      then Some (Building_add_employee building employee :: rest)
      else cons building <$> assign_loop rest employee building_type
  end.

Definition ConstructionCompany_assign_employee_to_building (self : ConstructionCompany)
    (id : Z) (building_type : pyobj) : result ConstructionCompany :=
  match next_or_None (λ emp, employee_id emp = id) (ConstructionCompany_employees self) with
  | None => Raise (employee_not_found id)
  | Some employee =>
      match assign_loop (ConstructionCompany__buildings self) employee building_type with
      | Some buildings =>
          Return (mkConstructionCompany (ConstructionCompany__company_name self)
                    (ConstructionCompany__category self) buildings)
      | None =>
          Raise (building_not_found building_type)
      end
  end.

Definition ConstructionCompany_display (self : ConstructionCompany) : string :=
  let building_info := join NL (map Building_display (ConstructionCompany__buildings self)) in
  "Construction Company Name: " +:+ ConstructionCompany__company_name self +:+
  ", Type: " +:+ ConstructionCompanyType_name (ConstructionCompany__category self) +:+
  NL +:+ "Buildings:" +:+ NL +:+ building_info.

(** ** Lines of a text *)

(** [c in s] for a character [c]. *)
Fixpoint contains (c : ascii) (s : string) : bool :=
  match s with
  | EmptyString => false
  | String c' s' => bool_decide (c' = c) || contains c s'
  end.

(** [s.split("\n")] *)
Fixpoint split_LF (s : string) : list string :=
  match s with
  | EmptyString => [EmptyString]
  | String c s' =>
      if bool_decide (c = LF) then EmptyString :: split_LF s'
      else match split_LF s' with
           | [] => [String c EmptyString]
           | line :: lines => String c line :: lines
           end
  end.

(** [s.splitlines()] for texts whose only line boundary is the line feed: a
    final line feed ends the last line instead of opening an empty one. *)
Definition splitlines (s : string) : list string :=
  let pieces := split_LF s in
  match last pieces with
  | Some EmptyString => removelast pieces
  | _ => pieces
  end.

(** ** Buildings that share a list object

    [Building.__init__] keeps the list it is given and [add_employee]
    appends to that list in place, so two buildings constructed on one list,
    and one building added to a construction company twice, show each
    other's additions.  Here the list objects live in a store, and an owned
    building is a slot: the attributes of the building and the address of
    its list object (a Building object added twice is the same slot twice).
    The property [employees] and [assign_employee_to_building], which reads
    lists and appends to one, are written again on the store. *)

Record BuildingSlot : Type := mkBuildingSlot {
  slot_building_name : string;
  slot_area : pynum;
  slot_building_type : BuildingType;
  slot_employees : nat
}.

(** The list object at an address (a reference always leads to a list). *)
Definition list_at (σ : gmap nat (list Employee)) (l : nat) : list Employee :=
  σ !!! l.

(** The building that a slot shows in a store. *)
Definition slot_building (σ : gmap nat (list Employee)) (slot : BuildingSlot)
    : Building :=
  mkBuilding (slot_building_name slot) (slot_area slot)
    (slot_building_type slot) (list_at σ (slot_employees slot)).

(** [building.add_employee(employee)] on the list object:
    [self.__employees.append(employee)]. *)
Definition slot_add_employee (σ : gmap nat (list Employee)) (slot : BuildingSlot)
    (employee : Employee) : gmap nat (list Employee) :=
  <[slot_employees slot := list_at σ (slot_employees slot) ++ [employee]]> σ.

(** The property [employees] of a construction company that owns the
    slots. *)
Definition store_employees (σ : gmap nat (list Employee))
    (slots : list BuildingSlot) : list Employee :=
  foldl (λ all_employees slot,
           all_employees ++ Building_employees (slot_building σ slot))
    [] slots.

(** The loop of [assign_employee_to_building]: [Some] of the store after
    the [add_employee] when the loop returns, [None] when it runs to its
    end. *)
Fixpoint store_assign_loop (σ : gmap nat (list Employee))
    (slots : list BuildingSlot) (employee : Employee) (building_type : pyobj)
    : option (gmap nat (list Employee)) :=
  match slots with
  | [] => None
  | slot :: rest =>
      if py_eq (Building_building_type (slot_building σ slot)) building_type
      then Some (slot_add_employee σ slot employee)
      else store_assign_loop σ rest employee building_type
  end.

Definition store_assign_employee_to_building (σ : gmap nat (list Employee))
    (slots : list BuildingSlot) (id : Z) (building_type : pyobj)
    : result (gmap nat (list Employee)) :=
  match next_or_None (λ emp, employee_id emp = id) (store_employees σ slots) with
  | None => Raise (employee_not_found id)
  | Some employee =>
      match store_assign_loop σ slots employee building_type with
      | Some σ' => Return σ'
      | None => Raise (building_not_found building_type)
      end
  end.

(** The first line of [Building.display()] and of [Company.display()]: the
    part of the f-string in front of its first [\n]. *)
Definition Building_header (self : Building) : string :=
  "Building Name: " +:+ Building__building_name self +:+
  ", Area: " +:+ str_num (Building__area self) +:+
  ", Type: " +:+ BuildingType_name (Building__building_type self).

Definition Company_header (self : Company) : string :=
  "Company Name: " +:+ Company__company_name self.

(** The first line of [ConstructionCompany.display()]. *)
Definition ConstructionCompany_header (self : ConstructionCompany) : string :=
  "Construction Company Name: " +:+ ConstructionCompany__company_name self +:+
  ", Type: " +:+ ConstructionCompanyType_name (ConstructionCompany__category self).

(** The condition under which the display of a building is a block of
    lines of its own inside the display of a construction company: no field
    holds a line feed, and the building has an employee (the display of a
    building without employees ends in a line feed). *)
Definition printable_staffed (b : Building) : Prop :=
  contains LF (Building__building_name b) = false ∧
  contains LF (str_num (Building__area b)) = false ∧
  Forall (λ e, contains LF (employee_name e) = false) (Building__employees b) ∧
  Building__employees b ≠ [].

(** ** The drivers' data *)

Definition emp1 : Employee := mkEmployee 1 "Green Lee" 75000.
Definition emp2 : Employee := mkEmployee 2 "Steven Smith" 80000.
Definition emp3 : Employee := mkEmployee 3 "Carl Hopper" 55000.
Definition emp4 : Employee := mkEmployee 4 "Ken Yung" 60000.
Definition emp5 : Employee := mkEmployee 5 "Jenny May" 90000.

Definition main_employees : list Employee := [emp1; emp2; emp3; emp4; emp5].

Definition main_building : Building :=
  mkBuilding "Warehouse" (PyFloat "2500.0") WAREHOUSE main_employees.

Definition main_company : Company := mkCompany "SFBU Corp" main_employees.

(** The construction company of [main] in [Q3.py] at the point where
    [assign_employee_to_building] is called: it owns the one building,
    from which "Green Lee" has been removed. *)
Definition main_construction_company : ConstructionCompany :=
  ConstructionCompany_add_building
    (ConstructionCompany_init "BuildItRight Inc." GENERAL_CONTRACTOR)
    (Building_remove_employee main_building "Green Lee").

(** Two buildings constructed on one list object that holds "Carl Hopper":
    a warehouse and a flex space. *)
Definition shared_store : gmap nat (list Employee) :=
  {[ 0%nat := [mkEmployee 3 "Carl Hopper" 55000] ]}.

Definition shared_slots : list BuildingSlot :=
  [mkBuildingSlot "North" (PyInt 100) WAREHOUSE 0;
   mkBuildingSlot "South" (PyInt 200) FLEX_SPACE 0].

(** * Properties *)

(** ** Equality of Python values *)

Lemma py_eq_true (a b : pyobj) : py_eq a b = true ↔ a = b.
Proof.
  destruct a as [s|t], b as [s'|t']; simpl;
    rewrite ?bool_decide_eq_true; split; intros H;
    try discriminate; congruence.
Qed.

Lemma py_eq_false (a b : pyobj) : py_eq a b = false ↔ a ≠ b.
Proof.
  rewrite <- py_eq_true. destruct (py_eq a b); split; congruence.
Qed.

Lemma py_eq_refl (a : pyobj) : py_eq a a = true.
Proof. by apply py_eq_true. Qed.

Lemma BuildingType_name_inj (t t' : BuildingType) :
  BuildingType_name t = BuildingType_name t' → t = t'.
Proof. by destruct t, t'. Qed.

(** ** Lookup by id *)

Section GetEmployee.
Variable id : Z.



(** The loop is total: it returns an employee of the list or raises. *)
Lemma get_employee_loop_cases (l : list Employee) :
  (∃ pre e post, l = pre ++ e :: post ∧ employee_id e = id ∧
     Forall (λ e', employee_id e' ≠ id) pre ∧
     get_employee_loop l id = Return e) ∨
  (Forall (λ e', employee_id e' ≠ id) l ∧
     get_employee_loop l id = Raise (employee_not_found id)).
Proof.
  induction l as [|e' l IH]; simpl.
  - right. by split.
  - case_bool_decide as He.
    + left. exists [], e', l. by repeat split.
    + destruct IH as [(pre & e & post & -> & ? & ? & ?)|[? ?]].
      * left. exists (e' :: pre), e, post. repeat split; auto.
      * right. split; auto.
Qed.
End GetEmployee.

(** ** Removal by name *)

Section RemoveEmployee.
Variable name : string.

Lemma employees_not_named_Forall (l : list Employee) :
  Forall (λ e, employee_name e ≠ name) (employees_not_named l name).
Proof. apply Forall_forall. by intros e [? _]%list_elem_of_filter. Qed.

Lemma employees_not_named_id (l : list Employee) :
  Forall (λ e, employee_name e ≠ name) l → employees_not_named l name = l.
Proof.
  unfold employees_not_named.
  induction 1 as [|e l He _ IH]; [done|].
  by rewrite filter_cons_True, IH.
Qed.

Lemma employees_not_named_sublist (l : list Employee) :
  employees_not_named l name `sublist_of` l.
Proof. apply sublist_filter. Qed.

Lemma employees_not_named_mono (l1 l2 : list Employee) :
  l1 `sublist_of` l2 →
  employees_not_named l1 name `sublist_of` employees_not_named l2 name.
Proof.
  unfold employees_not_named.
  induction 1 as [|e l1 l2 _ IH|e l1 l2 _ IH]; [done| |].
  - rewrite !filter_cons. case_decide; [by apply sublist_skip|done].
  - rewrite filter_cons. case_decide; [by apply sublist_cons|done].
Qed.

(** Nothing else is dropped: a selection of [l] without the name survives. *)
Lemma employees_not_named_greatest (l l' : list Employee) :
  l' `sublist_of` l → Forall (λ e, employee_name e ≠ name) l' →
  l' `sublist_of` employees_not_named l name.
Proof.
  intros Hsub Hall. rewrite <- (employees_not_named_id l') by done.
  by apply employees_not_named_mono.
Qed.

Lemma employees_not_named_idemp (l : list Employee) :
  employees_not_named (employees_not_named l name) name
  = employees_not_named l name.
Proof. apply employees_not_named_id, employees_not_named_Forall. Qed.

(** What is dropped is, employee for employee, what carries the name. *)
Lemma employees_not_named_removed (l : list Employee) :
  l ≡ₚ employees_not_named l name
       ++ filter (λ e : Employee, employee_name e = name) l.
Proof.
  unfold employees_not_named.
  induction l as [|e l IH]; [done|].
  rewrite !filter_cons. destruct (decide (employee_name e = name)) as [He|He].
  - rewrite decide_False by (by intros H; apply H).
    rewrite <- Permutation_middle. by constructor.
  - rewrite decide_True by done. simpl. by constructor.
Qed.
End RemoveEmployee.

(** ** Claims on [get_employee] and [remove_employee] *)



(** C5. For a Building and for a Company, [remove_employee(name)] keeps, in
    their order, the employees whose name differs from [name] and drops all
    the others: the new list is a subsequence of the old one, no employee in
    it carries the name, every selection of the old list free of the name is
    still a selection of the new one, and what was dropped is exactly the
    employees carrying the name.  When no employee carries the name the list
    is unchanged.  The method cannot raise, and the other attributes stay. *)
Theorem remove_employee_removes_exactly_the_named
    (b : Building) (c : Company) (name : string) :
  let b' := Building_remove_employee b name in
  let c' := Company_remove_employee c name in
  (Building__employees b' `sublist_of` Building__employees b ∧
   Forall (λ e, employee_name e ≠ name) (Building__employees b') ∧
   (∀ l, l `sublist_of` Building__employees b →
         Forall (λ e, employee_name e ≠ name) l →
         l `sublist_of` Building__employees b') ∧
   Building__employees b ≡ₚ
     Building__employees b'
     ++ filter (λ e, employee_name e = name) (Building__employees b) ∧
   (Forall (λ e, employee_name e ≠ name) (Building__employees b) → b' = b) ∧
   Building__building_name b' = Building__building_name b ∧
   Building__area b' = Building__area b ∧
   Building__building_type b' = Building__building_type b) ∧
  (Company__employees c' `sublist_of` Company__employees c ∧
   Forall (λ e, employee_name e ≠ name) (Company__employees c') ∧
   (∀ l, l `sublist_of` Company__employees c →
         Forall (λ e, employee_name e ≠ name) l →
         l `sublist_of` Company__employees c') ∧
   Company__employees c ≡ₚ
     Company__employees c'
     ++ filter (λ e, employee_name e = name) (Company__employees c) ∧
   (Forall (λ e, employee_name e ≠ name) (Company__employees c) → c' = c) ∧
   Company__company_name c' = Company__company_name c).
Proof.
  destruct b as [bn ba bt bl], c as [cn cl]; simpl.
  split.
  - split; [apply employees_not_named_sublist|].
    split; [apply employees_not_named_Forall|].
    split; [intros l; apply employees_not_named_greatest|].
    split; [apply employees_not_named_removed|].
    split; [|done].
    intros Hall. unfold Building_remove_employee; simpl.
    by rewrite employees_not_named_id.
  - split; [apply employees_not_named_sublist|].
    split; [apply employees_not_named_Forall|].
    split; [intros l; apply employees_not_named_greatest|].
    split; [apply employees_not_named_removed|].
    split; [|done].
    intros Hall. unfold Company_remove_employee; simpl.
    by rewrite employees_not_named_id.
Qed.

(** C6. For a Building and for a Company, removing by the same name twice
    in a row leaves the object as the first removal left it. *)
Theorem remove_employee_idempotent
    (b : Building) (c : Company) (name : string) :
  Building_remove_employee (Building_remove_employee b name) name
    = Building_remove_employee b name ∧
  Company_remove_employee (Company_remove_employee c name) name
    = Company_remove_employee c name.
Proof.
  unfold Building_remove_employee, Company_remove_employee; simpl.
  by rewrite !employees_not_named_idemp.
Qed.

(** ** The stable descending sort *)

Section SortedReverse.
Context {A : Type} (key : A → Z).

Lemma insert_reverse_perm (x : A) (l : list A) :
  insert_reverse key x l ≡ₚ x :: l.
Proof.
  induction l as [|y l IH]; simpl; [done|].
  case_bool_decide; [done|].
  rewrite IH. apply perm_swap.
Qed.

Lemma sorted_reverse_perm (l : list A) : sorted_reverse key l ≡ₚ l.
Proof.
  induction l as [|x l IH]; simpl; [done|].
  by rewrite insert_reverse_perm, IH.
Qed.


Lemma insert_reverse_sorted (x : A) (l : list A) :
  StronglySorted (descending key) l →
  StronglySorted (descending key) (insert_reverse key x l).
Proof.
  induction 1 as [|y l Hl IH Hy]; simpl.
  - repeat constructor.
  - case_bool_decide as Hyx.
    + constructor; [by constructor|].
      constructor; [done|].
      eapply Forall_impl; [exact Hy|].
      unfold descending. intros z Hz. lia.
    + constructor; [done|].
      rewrite insert_reverse_perm. constructor; [|done].
      unfold descending. lia.
Qed.

Lemma sorted_reverse_sorted (l : list A) :
  StronglySorted (descending key) (sorted_reverse key l).
Proof.
  induction l as [|x l IH]; simpl; [constructor|].
  by apply insert_reverse_sorted.
Qed.



Lemma take_sorted (n : nat) (l : list A) :
  StronglySorted (descending key) l → StronglySorted (descending key) (take n l).
Proof.
  intros Hl. rewrite <- (take_drop n l) in Hl.
  by apply StronglySorted_app_1_l in Hl.
Qed.


(** What [sorted(...)[:n]] leaves out is not larger than what it keeps. *)
Lemma take_sorted_reverse_top (n : nat) (l : list A) (a b : A) :
  a ∈ take n (sorted_reverse key l) → b ∈ drop n (sorted_reverse key l) →
  key b ≤ key a.
Proof.
  intros Ha Hb. pose proof (sorted_reverse_sorted l) as Hs.
  rewrite <- (take_drop n (sorted_reverse key l)) in Hs.
  by apply (StronglySorted_app_1_elem_of _ _ _ a b) in Hs.
Qed.
End SortedReverse.


(** ** Claim on [get_top_five_employees] *)



(** ** The derived employees of a construction company *)

Lemma foldl_extend (init : list Employee) (bs : list Building) :
  foldl (λ all_employees building, all_employees ++ Building_employees building)
    init bs
  = init ++ concat (map Building__employees bs).
Proof.
  revert init. induction bs as [|b bs IH]; intros init; simpl.
  - by rewrite app_nil_r.
  - by rewrite IH, <- app_assoc.
Qed.

Lemma ConstructionCompany_employees_concat (cc : ConstructionCompany) :
  ConstructionCompany_employees cc
  = concat (map Building__employees (ConstructionCompany__buildings cc)).
Proof. unfold ConstructionCompany_employees. by rewrite foldl_extend. Qed.

(** C8. Reading [employees] of a construction company gives the
    concatenation of the employee lists of its buildings, in building order
    and, within a building, in employee order.  Nothing is stored: the value
    is a function of the buildings as they are at the read, so a building
    added, or an employee added to one of the buildings, shows in the next
    read. *)
Theorem ConstructionCompany_employees_is_concatenation (cc : ConstructionCompany) :
  ConstructionCompany_employees cc
    = concat (map Building__employees (ConstructionCompany__buildings cc)) ∧
  (∀ b, ConstructionCompany_employees (ConstructionCompany_add_building cc b)
        = ConstructionCompany_employees cc ++ Building__employees b) ∧
  (∀ pre b post e,
     ConstructionCompany__buildings cc = pre ++ b :: post →
     ConstructionCompany_employees
       (mkConstructionCompany (ConstructionCompany__company_name cc)
          (ConstructionCompany__category cc)
          (pre ++ Building_add_employee b e :: post))
     = concat (map Building__employees pre)
       ++ (Building__employees b ++ [e])
       ++ concat (map Building__employees post)).
Proof.
  split; [apply ConstructionCompany_employees_concat|]. split.
  - intros b. rewrite !ConstructionCompany_employees_concat. simpl.
    by rewrite map_app, concat_app; simpl; rewrite app_nil_r.
  - intros pre b post e _. rewrite ConstructionCompany_employees_concat. simpl.
    by rewrite map_app, concat_app.
Qed.

(** ** Assignment of an employee to a building *)

Lemma next_or_None_absent (id : Z) (l : list Employee) :
  Forall (λ e, employee_id e ≠ id) l →
  next_or_None (λ emp, employee_id emp = id) l = None.
Proof.
  unfold next_or_None. induction 1 as [|e l He _ IH]; [done|].
  by rewrite filter_cons_False.
Qed.

Lemma next_or_None_first (id : Z) (pre post : list Employee) (e : Employee) :
  Forall (λ e', employee_id e' ≠ id) pre → employee_id e = id →
  next_or_None (λ emp, employee_id emp = id) (pre ++ e :: post) = Some e.
Proof.
  unfold next_or_None. intros Hpre He.
  induction Hpre as [|e' pre Hne _ IH]; simpl.
  - by rewrite filter_cons_True.
  - by rewrite filter_cons_False.
Qed.

(** The comparison of the loop never holds against a [BuildingType]
    member, so the loop runs to its end whatever the buildings are. *)
Lemma assign_loop_enum (bs : list Building) (e : Employee) (t : BuildingType) :
  assign_loop bs e (PyEnum t) = None.
Proof. induction bs as [|b bs IH]; simpl; [done|]. by rewrite IH. Qed.

(** Against the name of a type, the loop stops at the first building of
    that type and appends the employee there. *)
Lemma assign_loop_name (pre post : list Building) (b : Building) (e : Employee)
    (t : BuildingType) :
  Forall (λ b', Building__building_type b' ≠ t) pre →
  Building__building_type b = t →
  assign_loop (pre ++ b :: post) e (PyStr (BuildingType_name t))
  = Some (pre ++ Building_add_employee b e :: post).
Proof.
  intros Hpre Hb. induction Hpre as [|b' pre Hne _ IH]; simpl.
  - by rewrite Hb, bool_decide_eq_true_2.
  - rewrite bool_decide_eq_false_2, IH; [done|].
    by intros ?%BuildingType_name_inj.
Qed.

(** With a member of [BuildingType] as second argument the method never
    returns: it raises one of its two errors. *)
Lemma assign_employee_to_building_enum_raises (cc : ConstructionCompany)
    (id : Z) (t : BuildingType) :
  ConstructionCompany_assign_employee_to_building cc id (PyEnum t)
    = Raise (employee_not_found id) ∨
  ConstructionCompany_assign_employee_to_building cc id (PyEnum t)
    = Raise (building_not_found (PyEnum t)).
Proof.
  unfold ConstructionCompany_assign_employee_to_building.
  destruct (next_or_None _ _); [right|by left].
  by rewrite assign_loop_enum.
Qed.

(** With the name of the type as second argument the method does what its
    loop is written for: the first employee with the id is appended to the
    first building of the type. *)
Lemma assign_employee_to_building_name (cc : ConstructionCompany) (id : Z)
    (t : BuildingType) (epre epost : list Employee) (e : Employee)
    (pre post : list Building) (b : Building) :
  ConstructionCompany_employees cc = epre ++ e :: epost →
  Forall (λ e', employee_id e' ≠ id) epre → employee_id e = id →
  ConstructionCompany__buildings cc = pre ++ b :: post →
  Forall (λ b', Building__building_type b' ≠ t) pre →
  Building__building_type b = t →
  ConstructionCompany_assign_employee_to_building cc id
    (PyStr (BuildingType_name t))
  = Return (mkConstructionCompany (ConstructionCompany__company_name cc)
              (ConstructionCompany__category cc)
              (pre ++ Building_add_employee b e :: post)).
Proof.
  intros He Hepre Hid Hb Hpre Ht.
  unfold ConstructionCompany_assign_employee_to_building.
  rewrite He, next_or_None_first by done.
  by rewrite Hb, assign_loop_name.
Qed.



(** C1 on the code.  In the construction company of the driver employee 3
    is present and the one building is a warehouse, and
    [assign_employee_to_building(3, BuildingType.WAREHOUSE)] raises: the
    loop compares the name ['WAREHOUSE'] with the member
    [BuildingType.WAREHOUSE].  No employee list changes. *)
Theorem assign_employee_to_building_enum_member_raises :
  (∃ b e, b ∈ ConstructionCompany__buildings main_construction_company ∧
          e ∈ Building__employees b ∧ employee_id e = 3) ∧
  (∃ b, b ∈ ConstructionCompany__buildings main_construction_company ∧
        Building__building_type b = WAREHOUSE) ∧
  ConstructionCompany_assign_employee_to_building main_construction_company
    3 (PyEnum WAREHOUSE)
  = Raise (ValueError "No building of type BuildingType.WAREHOUSE found").
Proof.
  split; [|split].
  - exists (Building_remove_employee main_building "Green Lee"), emp3.
    split; [by apply list_elem_of_singleton|].
    split; [|done].
    apply list_elem_of_In. simpl. auto.
  - exists (Building_remove_employee main_building "Green Lee").
    split; [by apply list_elem_of_singleton|done].
  - reflexivity.
Qed.

(** ** Order of first occurrence *)

Section FirstSeen.
Context {A : Type} `{!EqDecision A}.

Lemma elem_of_first_seen (l : list A) (x : A) : x ∈ first_seen l ↔ x ∈ l.
Proof.
  induction l as [|y l IH]; simpl; [done|].
  rewrite !elem_of_cons, list_elem_of_filter, IH.
  destruct (decide (x = y)); tauto.
Qed.

Lemma NoDup_first_seen (l : list A) : NoDup (first_seen l).
Proof.
  induction l as [|y l IH]; simpl; constructor.
  - rewrite list_elem_of_filter. by intros [Hy _].
  - by apply NoDup_filter.
Qed.

Lemma first_seen_snoc (l : list A) (x : A) :
  first_seen (l ++ [x])
  = if decide (x ∈ l) then first_seen l else first_seen l ++ [x].
Proof.
  induction l as [|y l IH]; simpl; [done|].
  rewrite IH. destruct (decide (x ∈ l)) as [Hx|Hx].
  - destruct (decide (x ∈ y :: l)) as [_|Hn]; [done|].
    exfalso. apply Hn. rewrite elem_of_cons. by right.
  - rewrite filter_app, filter_cons, filter_nil.
    destruct (decide (x ∈ y :: l)) as [[->|Hin]%elem_of_cons|Hn].
    + destruct (decide (y ≠ y)) as [Hyy|_]; [done|]. by rewrite app_nil_r.
    + done.
    + destruct (decide (x ≠ y)) as [_|Hxy]; [done|].
      exfalso. apply Hn. rewrite elem_of_cons. left.
      by destruct (decide (x = y)).
Qed.
End FirstSeen.

(** ** The insertion-ordered dictionary *)

Section DictFacts.
Context {V : Type}.

Lemma dict_contains_keys (d : list (pyobj * V)) (k : pyobj) :
  dict_contains d k = true ↔ k ∈ map fst d.
Proof.
  unfold dict_contains. induction d as [|[k' v'] d IH]; simpl.
  - split; [done|]. by intros ?%elem_of_nil.
  - rewrite orb_true_iff, py_eq_true, elem_of_cons, IH.
    split; (intros [?|?]; [by left|by right]).
Qed.

Lemma dict_setitem_fresh (d : list (pyobj * V)) (k : pyobj) (v : V) :
  k ∉ map fst d → dict_setitem d k v = d ++ [(k, v)].
Proof.
  induction d as [|[k' v'] d IH]; simpl; [done|].
  rewrite not_elem_of_cons. intros [Hk Hd].
  rewrite (proj2 (py_eq_false k' k)) by done. by rewrite IH.
Qed.

Lemma dict_getitem_absent (d : list (pyobj * V)) (k : pyobj) :
  k ∉ map fst d → dict_getitem d k = None.
Proof.
  induction d as [|[k' v'] d IH]; simpl; [done|].
  rewrite not_elem_of_cons. intros [Hk Hd].
  rewrite (proj2 (py_eq_false k' k)) by done. by apply IH.
Qed.

Lemma dict_mutate_map (ks : list pyobj) (g : pyobj → V) (k : pyobj) (f : V → V) :
  NoDup ks →
  dict_mutate (map (λ k', (k', g k')) ks) k f
  = map (λ k', (k', if decide (k' = k) then f (g k') else g k')) ks.
Proof.
  induction 1 as [|k' ks Hk' _ IH]; simpl; [done|].
  destruct (decide (k' = k)) as [->|Hne].
  - rewrite py_eq_refl. f_equal. apply map_ext_in.
    intros k'' Hin%list_elem_of_In.
    by rewrite decide_False by (by intros ->).
  - rewrite (proj2 (py_eq_false k' k)) by done. by rewrite IH.
Qed.

Lemma dict_mutate_append_perm {B : Type} (d : list (pyobj * list B))
    (k : pyobj) (b : B) :
  k ∈ map fst d →
  concat (map snd (dict_mutate d k (λ group, group ++ [b])))
  ≡ₚ concat (map snd d) ++ [b].
Proof.
  induction d as [|[k' v'] d IH]; simpl; [by intros ?%elem_of_nil|].
  rewrite elem_of_cons. intros Hk.
  destruct (py_eq k' k) eqn:Heq; simpl.
  - rewrite <- !app_assoc. apply Permutation_app_head, Permutation_app_comm.
  - apply py_eq_false in Heq. destruct Hk as [->|Hk]; [done|].
    by rewrite IH, app_assoc.
Qed.
End DictFacts.

(** ** Grouping the buildings by type *)

Lemma filter_type_absent (bs : list Building) (k : pyobj) :
  k ∉ map Building_building_type bs →
  filter (λ b, Building_building_type b = k) bs = [].
Proof.
  induction bs as [|b bs IH]; simpl; [done|].
  rewrite not_elem_of_cons. intros [Hk Hbs].
  rewrite filter_cons_False by done. by apply IH.
Qed.

(** The closed form of the dictionary: one entry per type name, in the
    order of first occurrence, each with the buildings of that type in
    building-list order. *)
Lemma get_building_by_type_closed_form (bs : list Building) :
  foldl get_building_by_type_step [] bs
  = map (λ k, (k, filter (λ b, Building_building_type b = k) bs))
      (first_seen (map Building_building_type bs)).
Proof.
  induction bs as [|b bs IH] using rev_ind; [done|].
  rewrite foldl_snoc, IH. clear IH.
  unfold get_building_by_type_step.
  rewrite map_app.
  change (map Building_building_type [b]) with [Building_building_type b].
  rewrite first_seen_snoc.
  set (k := Building_building_type b).
  set (ks := first_seen (map Building_building_type bs)).
  destruct (decide (k ∈ map Building_building_type bs)) as [Hin|Hout].
  - rewrite (proj2 (dict_contains_keys _ k)); simpl.
    2:{ rewrite map_map. simpl. rewrite map_id. by apply elem_of_first_seen. }
    rewrite dict_mutate_map by apply NoDup_first_seen.
    apply map_ext. intros k'. f_equal.
    rewrite filter_app, filter_cons, filter_nil. fold k.
    destruct (decide (k' = k)) as [->|Hne].
    + by rewrite decide_True.
    + rewrite decide_False by (by intros ->). by rewrite app_nil_r.
  - assert (k ∉ map fst (map (λ k0, (k0, filter
              (λ b0, Building_building_type b0 = k0) bs)) ks)) as Hfresh.
    { rewrite map_map. simpl. rewrite map_id. unfold ks.
      by rewrite elem_of_first_seen. }
    destruct (dict_contains _ k) eqn:Hc.
    { by apply dict_contains_keys in Hc. }
    simpl. rewrite dict_setitem_fresh by done.
    rewrite map_app. simpl. f_equal.
    + apply map_ext_in. intros k' Hk'%list_elem_of_In.
      unfold ks in Hk'. rewrite elem_of_first_seen in Hk'.
      f_equal. rewrite filter_app, filter_cons, filter_nil. fold k.
      rewrite decide_False by (by intros ->). by rewrite app_nil_r.
    + f_equal. f_equal. rewrite filter_app, filter_cons, filter_nil. fold k.
      rewrite decide_True by done.
      by rewrite filter_type_absent.
Qed.

Lemma get_building_by_type_step_perm (d : list (pyobj * list Building))
    (b : Building) :
  concat (map snd (get_building_by_type_step d b)) ≡ₚ concat (map snd d) ++ [b].
Proof.
  unfold get_building_by_type_step.
  destruct (dict_contains d (Building_building_type b)) eqn:Hc; simpl.
  - apply dict_mutate_append_perm. by apply dict_contains_keys.
  - rewrite dict_setitem_fresh.
    + by rewrite map_app, concat_app.
    + intros Hin%dict_contains_keys. congruence.
Qed.

Lemma get_building_by_type_perm (bs : list Building) :
  concat (map snd (foldl get_building_by_type_step [] bs)) ≡ₚ bs.
Proof.
  induction bs as [|b bs IH] using rev_ind; [done|].
  by rewrite foldl_snoc, get_building_by_type_step_perm, IH.
Qed.

(** [get_building_by_type()] returns a dictionary with one entry per
    building type that occurs, keyed by what [building_type] reads on the
    buildings (the name string of the type, not the type), the keys being in
    the order in which
    the types are first seen along the building list; the group of a key
    holds, in building-list order, exactly the buildings of that type; every
    building is in the group of its own type and in no other, and the groups
    together are the building list up to order. *)
Theorem get_building_by_type_groups_by_first_seen (cc : ConstructionCompany) :
  let bs := ConstructionCompany__buildings cc in
  let d := ConstructionCompany_get_building_by_type cc in
  map fst d = first_seen (map Building_building_type bs) ∧
  NoDup (map fst d) ∧
  (∀ k g, (k, g) ∈ d → g = filter (λ b, Building_building_type b = k) bs) ∧
  (∀ k g, (k, g) ∈ d →
     ∃ t, k = PyStr (BuildingType_name t) ∧
          g = filter (λ b, Building__building_type b = t) bs) ∧
  (∀ b, b ∈ bs → ∃ g, (Building_building_type b, g) ∈ d ∧ b ∈ g) ∧
  (∀ b k g, (k, g) ∈ d → b ∈ g → k = Building_building_type b) ∧
  concat (map snd d) ≡ₚ bs.
Proof.
  intros bs d.
  assert (d = map (λ k, (k, filter (λ b, Building_building_type b = k) bs))
                (first_seen (map Building_building_type bs))) as Hd
    by apply get_building_by_type_closed_form.
  assert (map fst d = first_seen (map Building_building_type bs)) as Hkeys.
  { rewrite Hd, map_map. simpl. by rewrite map_id. }
  assert (∀ k g, (k, g) ∈ d →
            g = filter (λ b, Building_building_type b = k) bs) as Hgroup.
  { intros k g. rewrite Hd. intros Hin%list_elem_of_In%in_map_iff.
    destruct Hin as (k' & [= -> ->] & _). done. }
  split; [done|]. split; [rewrite Hkeys; apply NoDup_first_seen|].
  split; [done|]. split; [|split; [|split]].
  - intros k g Hin. pose proof (Hgroup k g Hin) as Hg.
    assert (k ∈ map Building_building_type bs) as Hk.
    { apply elem_of_first_seen. rewrite <- Hkeys.
      apply list_elem_of_In, in_map_iff. exists (k, g).
      split; [done|by apply list_elem_of_In]. }
    apply list_elem_of_In, in_map_iff in Hk as (b' & <- & _).
    exists (Building__building_type b'). split; [done|].
    rewrite Hg. apply list_filter_iff. intros b. unfold Building_building_type.
    split; [by intros [= ?%BuildingType_name_inj]|by intros ->].
  - intros b Hb. exists (filter (λ b', Building_building_type b' = Building_building_type b) bs).
    split.
    + rewrite Hd. apply list_elem_of_In, in_map_iff.
      exists (Building_building_type b). split; [done|].
      apply list_elem_of_In, elem_of_first_seen, list_elem_of_In, in_map. 
      by apply list_elem_of_In.
    + by apply list_elem_of_filter.
  - intros b k g Hin Hb. rewrite (Hgroup k g Hin) in Hb.
    by apply list_elem_of_filter in Hb as [-> _].
  - apply get_building_by_type_perm.
Qed.

(** ** Lines of the displays *)

Lemma string_app_cons (ch : ascii) (a b : string) :
  String ch a +:+ b = String ch (a +:+ b).
Proof. done. Qed.

Lemma string_app_assoc (a b c : string) : (a +:+ b) +:+ c = a +:+ b +:+ c.
Proof.
  induction a as [|ch a IH]; [done|].
  rewrite !string_app_cons. by f_equal.
Qed.

Lemma contains_app (c : ascii) (a b : string) :
  contains c (a +:+ b) = contains c a || contains c b.
Proof.
  induction a as [|ch a IH]; [done|].
  rewrite string_app_cons. simpl. by rewrite IH, orb_assoc.
Qed.

Lemma split_LF_nonempty (s : string) : split_LF s ≠ [].
Proof.
  destruct s as [|c s]; simpl; [done|].
  case_bool_decide; [done|]. by destruct (split_LF s).
Qed.

(** A text without line feed is one piece. *)
Lemma split_LF_one_line (a : string) :
  contains LF a = false → split_LF a = [a].
Proof.
  induction a as [|c a IH]; simpl; [done|].
  intros [Hc Ha]%orb_false_iff. rewrite Hc, IH; done.
Qed.

(** A line feed after a text without line feed closes the first piece. *)
Lemma split_LF_app_NL (a b : string) :
  contains LF a = false → split_LF (a +:+ NL +:+ b) = a :: split_LF b.
Proof.
  induction a as [|c a IH]; [done|].
  rewrite string_app_cons. simpl.
  intros [Hc Ha]%orb_false_iff. rewrite Hc, IH; done.
Qed.

Lemma split_LF_join (lines : list string) :
  Forall (λ line, contains LF line = false) lines → lines ≠ [] →
  split_LF (join NL lines) = lines.
Proof.
  induction 1 as [|line lines Hline Hlines IH]; [done|]. intros _.
  destruct lines as [|line' lines].
  - simpl. by apply split_LF_one_line.
  - change (join NL (line :: line' :: lines))
      with (line +:+ NL +:+ join NL (line' :: lines)).
    rewrite split_LF_app_NL by done. by rewrite IH.
Qed.

Lemma pretty_N_go_one_line (x : N) (s : string) :
  contains LF s = false → contains LF (pretty_N_go x s) = false.
Proof.
  revert s. induction (N.lt_wf_0 x) as [x _ IH]; intros s Hs.
  destruct (decide (x = 0)%N) as [->|Hx]; [by rewrite pretty_N_go_0|].
  rewrite pretty_N_go_step by lia. apply IH.
  - apply N.div_lt; lia.
  - simpl. rewrite Hs, orb_false_r. apply bool_decide_eq_false_2.
    unfold pretty_N_char. by repeat case_match.
Qed.

Lemma str_int_one_line (n : Z) : contains LF (str_int n) = false.
Proof.
  unfold str_int, pretty, pretty_Z, pretty, pretty_positive, pretty, pretty_N.
  destruct n as [|p|p]; [done| |].
  - destruct (decide (N.pos p = 0%N)); [done|].
    by apply pretty_N_go_one_line.
  - rewrite string_app_cons. simpl.
    destruct (decide (N.pos p = 0%N)); [done|].
    by apply pretty_N_go_one_line.
Qed.

Lemma BuildingType_name_one_line (t : BuildingType) :
  contains LF (BuildingType_name t) = false.
Proof. by destruct t. Qed.

Lemma Employee_display_one_line (e : Employee) :
  contains LF (employee_name e) = false →
  contains LF (Employee_display e) = false.
Proof.
  intros He. unfold Employee_display.
  rewrite !contains_app, !str_int_one_line. unfold employee_name in He.
  by rewrite He.
Qed.

Lemma Employee_display_not_empty (e : Employee) :
  Employee_display e ≠ EmptyString.
Proof. done. Qed.

(** The lines of a header line, the line [Employees:] and the joined
    displays of the employees. *)
Lemma splitlines_header_employees (header : string) (es : list Employee) :
  contains LF header = false →
  Forall (λ e, contains LF (employee_name e) = false) es →
  splitlines (header +:+ NL +:+ "Employees:" +:+ NL
              +:+ join NL (map Employee_display es))
  = header :: "Employees:"%string :: map Employee_display es.
Proof.
  intros Hh Hes. unfold splitlines.
  rewrite split_LF_app_NL, split_LF_app_NL by done.
  destruct es as [|e es].
  - done.
  - rewrite split_LF_join; [| |done].
    + set (ls := map Employee_display (e :: es)).
      assert (∃ l, last ls = Some l ∧ l ≠ EmptyString) as (l & Hl & Hne).
      { destruct (last ls) as [l|] eqn:Hl.
        - exists l. split; [done|].
          apply last_Some_elem_of in Hl.
          apply list_elem_of_In, in_map_iff in Hl as (e' & <- & _).
          apply Employee_display_not_empty.
        - by apply last_None in Hl. }
      change (last (header :: "Employees:"%string :: ls)) with (last ls).
      rewrite Hl. by destruct l.
    + apply Forall_forall. intros line (e' & <- & He')%list_elem_of_In%in_map_iff.
      apply Employee_display_one_line.
      rewrite Forall_forall in Hes. by apply Hes, list_elem_of_In.
Qed.

Lemma Building_display_header (b : Building) :
  Building_display b
  = Building_header b +:+ NL +:+ "Employees:" +:+ NL
    +:+ join NL (map Employee_display (Building__employees b)).
Proof.
  unfold Building_display, Building_header. by rewrite !string_app_assoc.
Qed.

Lemma Company_display_header (c : Company) :
  Company_display c
  = Company_header c +:+ NL +:+ "Employees:" +:+ NL
    +:+ join NL (map Employee_display (Company__employees c)).
Proof.
  unfold Company_display, Company_header. by rewrite !string_app_assoc.
Qed.

(** ** Claim on [display] *)

(** C9, as the code has it.  When no name and no rendered area holds a line
    feed, the text returned by [display()] of a Building or of a Company
    with [n] employees has [n + 2] lines: the line of the attributes, the
    line [Employees:], and then the display line of each employee in list
    order. *)
Theorem display_lines (b : Building) (c : Company) :
  contains LF (Building__building_name b) = false →
  contains LF (str_num (Building__area b)) = false →
  Forall (λ e, contains LF (employee_name e) = false) (Building__employees b) →
  contains LF (Company__company_name c) = false →
  Forall (λ e, contains LF (employee_name e) = false) (Company__employees c) →
  (splitlines (Building_display b)
     = Building_header b :: "Employees:"%string
         :: map Employee_display (Building__employees b) ∧
   length (splitlines (Building_display b))
     = (length (Building__employees b) + 2)%nat) ∧
  (splitlines (Company_display c)
     = Company_header c :: "Employees:"%string
         :: map Employee_display (Company__employees c) ∧
   length (splitlines (Company_display c))
     = (length (Company__employees c) + 2)%nat).
Proof.
  intros Hbn Hba Hbe Hcn Hce.
  assert (splitlines (Building_display b)
          = Building_header b :: "Employees:"%string
              :: map Employee_display (Building__employees b)) as Hb.
  { rewrite Building_display_header. apply splitlines_header_employees; [|done].
    unfold Building_header.
    by rewrite !contains_app, Hbn, Hba, BuildingType_name_one_line. }
  assert (splitlines (Company_display c)
          = Company_header c :: "Employees:"%string
              :: map Employee_display (Company__employees c)) as Hc.
  { rewrite Company_display_header. apply splitlines_header_employees; [|done].
    unfold Company_header. by rewrite !contains_app, Hcn. }
  rewrite Hb, Hc. simpl. rewrite !length_map.
  repeat split; lia.
Qed.

(** The building and the company of the drivers: seven lines for five
    employees. *)
Lemma display_lines_witness :
  length (splitlines (Building_display main_building)) = 7%nat ∧
  length (splitlines (Company_display main_company)) = 7%nat.
Proof.
  assert (Forall (λ e, contains LF (employee_name e) = false) main_employees)
    as Hes by (repeat constructor).
  destruct (display_lines main_building main_company
              eq_refl eq_refl Hes eq_refl Hes) as [[_ Hb] [_ Hc]].
  split; [exact Hb|exact Hc].
Defined.

(** C9 as stated fails on the building of the drivers: it holds five
    employees and its display has seven lines, not six; and on a building
    without employees, whose display has two lines, not one. *)
Lemma display_not_one_line_more_than_employees :
  length (Building__employees main_building) = 5%nat ∧
  length (splitlines (Building_display main_building)) = 7%nat ∧
  length (splitlines (Building_display main_building))
    ≠ (length (Building__employees main_building) + 1)%nat ∧
  length (splitlines (Building_display
            (mkBuilding "Warehouse" (PyFloat "2500.0") WAREHOUSE []))) = 2%nat.
Proof. repeat split; try reflexivity. vm_compute. lia. Qed.

(** * Further properties of the classes *)

(** ** [add_employee], [get_employee] and [remove_employee] together *)

Lemma get_employee_loop_snoc (l : list Employee) (e : Employee) (id : Z) :
  get_employee_loop (l ++ [e]) id
  = match get_employee_loop l id with
    | Return e0 => Return e0
    | Raise err => if bool_decide (employee_id e = id) then Return e else Raise err
    end.
Proof.
  induction l as [|e' l IH]; simpl; [done|].
  by destruct (bool_decide (employee_id e' = id)).
Qed.

(** A lookup after [add_employee]: an id that was found is found as before,
    on the same employee, also when the new employee carries that id; an id
    that was not found is found on the new employee when it is the new
    employee's id, and is still not found otherwise. *)
Theorem add_employee_then_get_employee
    (b : Building) (c : Company) (e : Employee) (id : Z) :
  Building_get_employee (Building_add_employee b e) id
    = match Building_get_employee b id with
      | Return e0 => Return e0
      | Raise err =>
          if bool_decide (employee_id e = id) then Return e else Raise err
      end ∧
  Company_get_employee (Company_add_employee c e) id
    = match Company_get_employee c id with
      | Return e0 => Return e0
      | Raise err =>
          if bool_decide (employee_id e = id) then Return e else Raise err
      end.
Proof.
  unfold Building_get_employee, Company_get_employee; simpl.
  by rewrite !get_employee_loop_snoc.
Qed.

Lemma employees_not_named_snoc (l : list Employee) (e : Employee) (name : string) :
  employees_not_named (l ++ [e]) name
  = employees_not_named l name
    ++ (if decide (employee_name e ≠ name) then [e] else []).
Proof.
  unfold employees_not_named. by rewrite filter_app, filter_cons, filter_nil.
Qed.

(** [add_employee] followed by [remove_employee]: removing by the name of
    the employee just added also removes that employee, and gives the object
    back as it was when nobody else carried the name; removing by another
    name and adding commute. *)
Theorem add_employee_then_remove_employee
    (b : Building) (c : Company) (e : Employee) (name : string) :
  (Building_remove_employee (Building_add_employee b e) (employee_name e)
     = Building_remove_employee b (employee_name e) ∧
   (Forall (λ e', employee_name e' ≠ employee_name e) (Building__employees b) →
    Building_remove_employee (Building_add_employee b e) (employee_name e) = b) ∧
   (employee_name e ≠ name →
    Building_remove_employee (Building_add_employee b e) name
      = Building_add_employee (Building_remove_employee b name) e)) ∧
  (Company_remove_employee (Company_add_employee c e) (employee_name e)
     = Company_remove_employee c (employee_name e) ∧
   (Forall (λ e', employee_name e' ≠ employee_name e) (Company__employees c) →
    Company_remove_employee (Company_add_employee c e) (employee_name e) = c) ∧
   (employee_name e ≠ name →
    Company_remove_employee (Company_add_employee c e) name
      = Company_add_employee (Company_remove_employee c name) e)).
Proof.
  destruct b as [bn ba bt bl], c as [cn cl].
  unfold Building_remove_employee, Building_add_employee,
    Company_remove_employee, Company_add_employee; simpl.
  rewrite !employees_not_named_snoc.
  destruct (decide (employee_name e ≠ employee_name e)) as [Hne|_]; [done|].
  rewrite !app_nil_r.
  repeat split.
  - intros Hall. by rewrite employees_not_named_id.
  - intros Hne. by rewrite decide_True.
  - intros Hall. by rewrite employees_not_named_id.
  - intros Hne. by rewrite decide_True.
Qed.

Lemma employees_not_named_comm (l : list Employee) (n1 n2 : string) :
  employees_not_named (employees_not_named l n1) n2
  = employees_not_named (employees_not_named l n2) n1.
Proof.
  unfold employees_not_named. rewrite !list_filter_filter.
  apply list_filter_iff. tauto.
Qed.

(** Removals by two names can be done in either order. *)
Theorem remove_employee_commutes
    (b : Building) (c : Company) (n1 n2 : string) :
  Building_remove_employee (Building_remove_employee b n1) n2
    = Building_remove_employee (Building_remove_employee b n2) n1 ∧
  Company_remove_employee (Company_remove_employee c n1) n2
    = Company_remove_employee (Company_remove_employee c n2) n1.
Proof.
  unfold Building_remove_employee, Company_remove_employee; simpl.
  split; f_equal; apply employees_not_named_comm.
Qed.

Lemma get_employee_loop_Return (l : list Employee) (id : Z) (e : Employee) :
  get_employee_loop l id = Return e → e ∈ l ∧ employee_id e = id.
Proof.
  induction l as [|e' l IH]; simpl; [done|].
  case_bool_decide as He.
  - intros [= ->]. split; [by left|done].
  - intros [Hin Hid]%IH. split; [by right|done].
Qed.

Lemma get_employee_loop_not_named (l : list Employee) (id : Z) (name : string)
    (e : Employee) :
  get_employee_loop l id = Return e → employee_name e ≠ name →
  get_employee_loop (employees_not_named l name) id = Return e.
Proof.
  unfold employees_not_named.
  induction l as [|e' l IH]; simpl; [done|].
  case_bool_decide as He.
  - intros [= ->] Hname. rewrite filter_cons_True by done. simpl.
    by rewrite bool_decide_eq_true_2.
  - intros Hl Hname. rewrite filter_cons.
    destruct (decide (employee_name e' ≠ name)); simpl.
    + rewrite bool_decide_eq_false_2 by done. by apply IH.
    + by apply IH.
Qed.

(** A lookup after [remove_employee(name)]: it never returns an employee
    carrying the name, what it returns was in the list before and has the
    id; and an employee that a lookup found before, and that does not carry
    the name, is found by the same lookup afterwards. *)
Theorem remove_employee_then_get_employee
    (b : Building) (c : Company) (name : string) (id : Z) (e : Employee) :
  (Building_get_employee (Building_remove_employee b name) id = Return e →
   employee_name e ≠ name ∧ e ∈ Building__employees b ∧ employee_id e = id) ∧
  (Building_get_employee b id = Return e → employee_name e ≠ name →
   Building_get_employee (Building_remove_employee b name) id = Return e) ∧
  (Company_get_employee (Company_remove_employee c name) id = Return e →
   employee_name e ≠ name ∧ e ∈ Company__employees c ∧ employee_id e = id) ∧
  (Company_get_employee c id = Return e → employee_name e ≠ name →
   Company_get_employee (Company_remove_employee c name) id = Return e).
Proof.
  unfold Building_get_employee, Company_get_employee; simpl.
  assert (∀ l, get_employee_loop (employees_not_named l name) id = Return e →
               employee_name e ≠ name ∧ e ∈ l ∧ employee_id e = id) as Hret.
  { intros l [Hin Hid]%get_employee_loop_Return.
    apply list_elem_of_filter in Hin as [Hname Hin]. done. }
  split; [apply Hret|]. split; [apply get_employee_loop_not_named|].
  split; [apply Hret|apply get_employee_loop_not_named].
Qed.

(** The driver's building: "Green Lee" is removed, employee 3 is still
    found, and nobody found afterwards is called "Green Lee". *)
Lemma remove_employee_then_get_employee_witness :
  Building_get_employee (Building_remove_employee main_building "Green Lee") 3
    = Return emp3 ∧
  Company_get_employee (Company_remove_employee main_company "Green Lee") 3
    = Return emp3 ∧
  employee_name emp3 ≠ "Green Lee".
Proof.
  destruct (remove_employee_then_get_employee main_building main_company
              "Green Lee" 3 emp3) as (Hb1 & Hb2 & Hc1 & Hc2).
  assert (employee_name emp3 ≠ "Green Lee") as Hne by discriminate.
  split; [exact (Hb2 eq_refl Hne)|].
  split; [exact (Hc2 eq_refl Hne)|exact Hne].
Defined.

(** ** More on [get_top_five_employees] *)

Section SortedReverseMore.
Context {A : Type} (key : A → Z).

(** An element not smaller than all of a list goes in front of it. *)
Lemma insert_reverse_front (x : A) (l : list A) :
  Forall (λ z, key z ≤ key x) l → insert_reverse key x l = x :: l.
Proof.
  destruct 1 as [|y l Hy _]; simpl; [done|].
  by rewrite bool_decide_eq_true_2.
Qed.

(** A list in descending order is left as it is. *)
Lemma sorted_reverse_fixed (l : list A) :
  StronglySorted (descending key) l → sorted_reverse key l = l.
Proof.
  induction 1 as [|x l _ IH Hx]; simpl; [done|].
  rewrite IH. by apply insert_reverse_front.
Qed.

Lemma filter_insert_reverse_True (P : A → Prop) `{!∀ a, Decision (P a)}
    (x : A) (l : list A) :
  StronglySorted (descending key) l → P x →
  filter P (insert_reverse key x l) = insert_reverse key x (filter P l).
Proof.
  intros Hl Hx. induction Hl as [|y l _ IH Hy]; simpl.
  - by rewrite filter_cons_True.
  - case_bool_decide as Hyx.
    + rewrite filter_cons_True by done.
      symmetry. apply insert_reverse_front.
      apply Forall_forall. intros z [Hz Hin]%list_elem_of_filter. 
      apply elem_of_cons in Hin as [->|Hin]; [done|].
      rewrite Forall_forall in Hy. specialize (Hy z Hin).
      unfold descending in Hy. lia.
    + rewrite !(filter_cons _ y), IH.
      destruct (decide (P y)); simpl; [|done].
      by rewrite bool_decide_eq_false_2.
Qed.

Lemma filter_insert_reverse_False (P : A → Prop) `{!∀ a, Decision (P a)}
    (x : A) (l : list A) :
  ¬ P x → filter P (insert_reverse key x l) = filter P l.
Proof.
  intros Hx. induction l as [|y l IH]; simpl.
  - by rewrite filter_cons_False.
  - case_bool_decide.
    + by rewrite filter_cons_False.
    + by rewrite !(filter_cons _ y), IH.
Qed.

(** Sorting a selection is selecting from the sorted list. *)
Lemma sorted_reverse_filter (P : A → Prop) `{!∀ a, Decision (P a)} (l : list A) :
  sorted_reverse key (filter P l) = filter P (sorted_reverse key l).
Proof.
  induction l as [|x l IH]; simpl; [done|].
  rewrite filter_cons. destruct (decide (P x)) as [Hx|Hx]; simpl.
  - rewrite IH. symmetry.
    by apply filter_insert_reverse_True; [apply sorted_reverse_sorted|].
  - by rewrite filter_insert_reverse_False.
Qed.

Lemma take_filter_Forall (P : A → Prop) `{!∀ a, Decision (P a)}
    (n : nat) (l : list A) :
  Forall P (take n l) → take n (filter P l) = take n l.
Proof.
  revert l. induction n as [|n IH]; intros [|x l]; simpl; try done.
  intros [Hx Hl]%Forall_cons. rewrite filter_cons_True by done. simpl.
  by rewrite IH.
Qed.

Lemma take_sorted_reverse_rest (n : nat) (l : list A) (a e : A) :
  a ∈ take n (sorted_reverse key l) → e ∈ l →
  e ∉ take n (sorted_reverse key l) → key e ≤ key a.
Proof.
  intros Ha He Hout. apply (take_sorted_reverse_top key n l a e); [done|].
  rewrite <- (sorted_reverse_perm key l) in He.
  rewrite <- (take_drop n (sorted_reverse key l)) in He.
  by apply elem_of_app in He as [He|He].
Qed.
End SortedReverseMore.

(** For employees whose incomes are Python ints, the employees returned by
    [get_top_five_employees()] are top earners: an employee of the list
    that is not returned earns no more than any employee that is
    returned. *)
Theorem get_top_five_employees_leaves_out_no_higher_income
    (b : Building) (c : Company) (a e : Employee) :
  (a ∈ Building_get_top_five_employees b → e ∈ Building__employees b →
   e ∉ Building_get_top_five_employees b →
   annual_income e ≤ annual_income a) ∧
  (a ∈ Company_get_top_five_employees c → e ∈ Company__employees c →
   e ∉ Company_get_top_five_employees c →
   annual_income e ≤ annual_income a).
Proof.
  split; apply (take_sorted_reverse_rest annual_income 5).
Qed.

(** Six employees: the one left out, with income 50000, earns no more than
    "Carl Hopper", the last of the five returned. *)
Lemma get_top_five_employees_leaves_out_no_higher_income_witness :
  let e6 := mkEmployee 6 "Ada King" 50000 in
  let b := mkBuilding "Warehouse" (PyInt 2500) WAREHOUSE (main_employees ++ [e6]) in
  let c := mkCompany "SFBU Corp" (main_employees ++ [e6]) in
  Building_get_top_five_employees b = [emp5; emp2; emp1; emp4; emp3] ∧
  annual_income e6 ≤ annual_income emp3.
Proof.
  intros e6 b c. split; [reflexivity|].
  destruct (get_top_five_employees_leaves_out_no_higher_income b c emp3 e6)
    as [Hb _].
  apply Hb.
  - change (emp3 ∈ [emp5; emp2; emp1; emp4; emp3]).
    apply list_elem_of_In. simpl. auto 6.
  - apply list_elem_of_In. simpl. auto 7.
  - change (e6 ∉ [emp5; emp2; emp1; emp4; emp3]).
    intros Hin%list_elem_of_In. simpl in Hin.
    repeat destruct Hin as [Hin|Hin]; try discriminate Hin. done.
Defined.

(** On a list that is already in descending order of income,
    [get_top_five_employees()] returns its first five; so the top five of
    the top five are the top five. *)
Theorem get_top_five_employees_of_sorted (b : Building) (c : Company) :
  (StronglySorted (descending annual_income) (Building__employees b) →
   Building_get_top_five_employees b = take 5 (Building__employees b)) ∧
  Building_get_top_five_employees
    (mkBuilding (Building__building_name b) (Building__area b)
       (Building__building_type b) (Building_get_top_five_employees b))
    = Building_get_top_five_employees b ∧
  (StronglySorted (descending annual_income) (Company__employees c) →
   Company_get_top_five_employees c = take 5 (Company__employees c)) ∧
  Company_get_top_five_employees
    (mkCompany (Company__company_name c) (Company_get_top_five_employees c))
    = Company_get_top_five_employees c.
Proof.
  assert (∀ l, take 5 (sorted_reverse annual_income
                         (take 5 (sorted_reverse annual_income l)))
               = take 5 (sorted_reverse annual_income l)) as Htop.
  { intros l. rewrite (sorted_reverse_fixed annual_income (take 5 _)).
    - by rewrite take_take.
    - apply take_sorted, sorted_reverse_sorted. }
  unfold Building_get_top_five_employees, Company_get_top_five_employees; simpl.
  split; [intros Hs; by rewrite sorted_reverse_fixed|].
  split; [apply Htop|].
  split; [intros Hs; by rewrite sorted_reverse_fixed|apply Htop].
Qed.

(** For employees whose incomes are Python ints, removing a name that none
    of the top five carries leaves the top five as they are. *)
Theorem remove_employee_outside_top_five
    (b : Building) (c : Company) (name : string) :
  (Forall (λ e, employee_name e ≠ name) (Building_get_top_five_employees b) →
   Building_get_top_five_employees (Building_remove_employee b name)
     = Building_get_top_five_employees b) ∧
  (Forall (λ e, employee_name e ≠ name) (Company_get_top_five_employees c) →
   Company_get_top_five_employees (Company_remove_employee c name)
     = Company_get_top_five_employees c).
Proof.
  unfold Building_get_top_five_employees, Company_get_top_five_employees,
    employees_not_named; simpl.
  unfold employees_not_named.
  split; intros Hall; rewrite sorted_reverse_filter;
    by apply take_filter_Forall.
Qed.

(** Six employees: removing "Ada King", who is not among the top five. *)
Lemma remove_employee_outside_top_five_witness :
  let e6 := mkEmployee 6 "Ada King" 50000 in
  let b := mkBuilding "Warehouse" (PyInt 2500) WAREHOUSE (e6 :: main_employees) in
  let c := mkCompany "SFBU Corp" (e6 :: main_employees) in
  Building_get_top_five_employees (Building_remove_employee b "Ada King")
    = Building_get_top_five_employees b ∧
  Company_get_top_five_employees (Company_remove_employee c "Ada King")
    = Company_get_top_five_employees c.
Proof.
  intros e6 b c.
  destruct (remove_employee_outside_top_five b c "Ada King") as [Hb Hc].
  split; [apply Hb|apply Hc]; repeat constructor; discriminate.
Defined.

(** ** More on the displays *)

(** Splitting at line feeds distributes over a line feed between two texts. *)
Lemma split_LF_app (a b : string) :
  split_LF (a +:+ NL +:+ b) = split_LF a ++ split_LF b.
Proof.
  induction a as [|c a IH]; [done|].
  rewrite string_app_cons. simpl. rewrite IH.
  case_bool_decide; [done|].
  pose proof (split_LF_nonempty a). by destruct (split_LF a).
Qed.

Lemma split_LF_join_texts (texts : list string) :
  texts ≠ [] → split_LF (join NL texts) = concat (map split_LF texts).
Proof.
  induction texts as [|t texts IH]; [done|]. intros _.
  destruct texts as [|t' texts].
  - simpl. by rewrite app_nil_r.
  - change (join NL (t :: t' :: texts)) with (t +:+ NL +:+ join NL (t' :: texts)).
    rewrite split_LF_app, IH by done. done.
Qed.

(** When no piece is empty, no final line feed is there to be dropped. *)
Lemma splitlines_no_empty_piece (s : string) :
  Forall (λ piece, piece ≠ EmptyString) (split_LF s) →
  splitlines s = split_LF s.
Proof.
  intros Hall. unfold splitlines.
  destruct (last (split_LF s)) as [[|c piece]|] eqn:Hlast; [|done..].
  apply last_Some_elem_of in Hlast. rewrite Forall_forall in Hall.
  by destruct (Hall _ Hlast).
Qed.

Lemma split_LF_Building_display (b : Building) :
  printable_staffed b →
  split_LF (Building_display b)
  = Building_header b :: "Employees:"%string
      :: map Employee_display (Building__employees b).
Proof.
  intros (Hn & Ha & Hes & Hne). rewrite Building_display_header.
  assert (contains LF (Building_header b) = false) as Hh.
  { unfold Building_header.
    by rewrite !contains_app, Hn, Ha, BuildingType_name_one_line. }
  rewrite (split_LF_app_NL (Building_header b)) by done.
  rewrite (split_LF_app_NL "Employees:") by done.
  rewrite split_LF_join; [done| |by destruct (Building__employees b)].
  apply Forall_forall. intros line (e' & <- & He')%list_elem_of_In%in_map_iff.
  apply Employee_display_one_line.
  rewrite Forall_forall in Hes. by apply Hes, list_elem_of_In.
Qed.

Lemma ConstructionCompany_display_header (cc : ConstructionCompany) :
  ConstructionCompany_display cc
  = ConstructionCompany_header cc +:+ NL +:+ "Buildings:" +:+ NL
    +:+ join NL (map Building_display (ConstructionCompany__buildings cc)).
Proof.
  unfold ConstructionCompany_display, ConstructionCompany_header.
  by rewrite !string_app_assoc.
Qed.

(** The display of a construction company whose name holds no line feed and
    whose buildings have printable fields and at least one employee each:
    the line of the attributes, the line [Buildings:], and then, building
    after building, the lines of the building's own display; two lines more
    than the buildings' displays have together. *)
Theorem ConstructionCompany_display_lines (cc : ConstructionCompany) :
  contains LF (ConstructionCompany__company_name cc) = false →
  Forall printable_staffed (ConstructionCompany__buildings cc) →
  splitlines (ConstructionCompany_display cc)
    = ConstructionCompany_header cc :: "Buildings:"%string
        :: concat (map (λ b, splitlines (Building_display b))
                     (ConstructionCompany__buildings cc)) ∧
  length (splitlines (ConstructionCompany_display cc))
    = (2 + sum_list (map (λ b, length (Building__employees b) + 2)
                       (ConstructionCompany__buildings cc)))%nat.
Proof.
  intros Hn Hbs.
  assert (∀ b, printable_staffed b →
            splitlines (Building_display b)
            = Building_header b :: "Employees:"%string
                :: map Employee_display (Building__employees b)) as Hlines.
  { intros b Hb. rewrite splitlines_no_empty_piece;
      rewrite split_LF_Building_display by done; [done|].
    repeat constructor; try done.
    apply Forall_forall. intros line (e' & <- & _)%list_elem_of_In%in_map_iff.
    apply Employee_display_not_empty. }
  assert (contains LF (ConstructionCompany_header cc) = false) as Hh.
  { unfold ConstructionCompany_header. rewrite !contains_app, Hn.
    by destruct (ConstructionCompany__category cc). }
  rewrite ConstructionCompany_display_header.
  destruct (ConstructionCompany__buildings cc) as [|b0 bs0] eqn:Hcc.
  { unfold splitlines.
    rewrite (split_LF_app_NL (ConstructionCompany_header cc)) by done.
    by rewrite (split_LF_app_NL "Buildings:") by done. }
  assert (b0 :: bs0 ≠ []) as Hne by done. clear Hcc.
  revert Hne Hbs. generalize (b0 :: bs0). intros bs Hne Hbs.
  set (text := ConstructionCompany_header cc +:+ NL +:+ "Buildings:" +:+ NL
               +:+ join NL (map Building_display bs)).
  assert (Forall (λ piece, piece ≠ EmptyString)
            (concat (map (λ b, splitlines (Building_display b)) bs))) as Hpieces.
  { apply Forall_forall. intros line Hline.
    apply list_elem_of_In, in_concat in Hline as (ls & Hls & Hline).
    apply in_map_iff in Hls as (b & <- & Hb%list_elem_of_In).
    rewrite Forall_forall in Hbs. rewrite Hlines in Hline by auto.
    destruct Hline as [<-|[<-|Hline]]; [done..|].
    apply in_map_iff in Hline as (e' & <- & _).
    apply Employee_display_not_empty. }
  assert (split_LF text
          = ConstructionCompany_header cc :: "Buildings:"%string
              :: concat (map (λ b, splitlines (Building_display b)) bs)) as Hsplit.
  { unfold text. rewrite split_LF_app_NL by done.
    rewrite split_LF_app, (split_LF_one_line "Buildings:") by done.
    rewrite split_LF_join_texts by (by destruct bs). simpl. do 3 f_equal.
    rewrite map_map. apply map_ext_in. intros b Hb%list_elem_of_In.
    rewrite Forall_forall in Hbs.
    rewrite Hlines by auto. by apply split_LF_Building_display, Hbs. }
  assert (splitlines text = split_LF text) as ->.
  { apply splitlines_no_empty_piece. rewrite Hsplit.
    by repeat constructor. }
  rewrite Hsplit. split; [done|]. simpl. do 2 f_equal.
  clear Hsplit Hpieces text Hne.
  induction Hbs as [|b bs' Hb Hbs' IH]; simpl; [done|].
  rewrite length_app, IH, Hlines by done. simpl. rewrite length_map. lia.
Qed.

(** The construction company of the driver: two lines, and the six lines of
    its one building with four employees. *)
Lemma ConstructionCompany_display_lines_witness :
  length (splitlines (ConstructionCompany_display main_construction_company))
    = 8%nat.
Proof.
  assert (Forall printable_staffed
            (ConstructionCompany__buildings main_construction_company)) as Hbs.
  { repeat constructor; done. }
  exact (proj2 (ConstructionCompany_display_lines main_construction_company
                  eq_refl Hbs)).
Defined.

(** [add_employee] adds the display line of the employee as the last line of
    the display of a Building or Company, and changes no other line. *)
Theorem add_employee_appends_display_line
    (b : Building) (c : Company) (e : Employee) :
  contains LF (employee_name e) = false →
  contains LF (Building__building_name b) = false →
  contains LF (str_num (Building__area b)) = false →
  Forall (λ e', contains LF (employee_name e') = false) (Building__employees b) →
  contains LF (Company__company_name c) = false →
  Forall (λ e', contains LF (employee_name e') = false) (Company__employees c) →
  splitlines (Building_display (Building_add_employee b e))
    = splitlines (Building_display b) ++ [Employee_display e] ∧
  splitlines (Company_display (Company_add_employee c e))
    = splitlines (Company_display c) ++ [Employee_display e].
Proof.
  intros He Hbn Hba Hbe Hcn Hce.
  assert (contains LF (Building_header b) = false) as Hbh.
  { unfold Building_header.
    by rewrite !contains_app, Hbn, Hba, BuildingType_name_one_line. }
  assert (contains LF (Company_header c) = false) as Hch.
  { unfold Company_header. by rewrite !contains_app, Hcn. }
  rewrite !Building_display_header, !Company_display_header. simpl.
  change (Building_header (Building_add_employee b e)) with (Building_header b).
  change (Company_header (Company_add_employee c e)) with (Company_header c).
  rewrite !splitlines_header_employees; try done.
  - by rewrite !map_app.
  - apply Forall_app. split; [done|by constructor].
  - apply Forall_app. split; [done|by constructor].
Qed.

(** The building and the company of the drivers take a sixth employee. *)
Lemma add_employee_appends_display_line_witness :
  let e6 := mkEmployee 6 "Ada King" 50000 in
  splitlines (Building_display (Building_add_employee main_building e6))
    = splitlines (Building_display main_building)
      ++ ["ID: 6, Name: Ada King, Income: $50000"%string] ∧
  splitlines (Company_display (Company_add_employee main_company e6))
    = splitlines (Company_display main_company)
      ++ ["ID: 6, Name: Ada King, Income: $50000"%string].
Proof.
  intros e6.
  assert (Forall (λ e, contains LF (employee_name e) = false) main_employees)
    as Hes by (repeat constructor).
  exact (add_employee_appends_display_line main_building main_company e6
           eq_refl eq_refl eq_refl Hes eq_refl Hes).
Defined.

(** ** More on [get_building_by_type] *)

Lemma dict_getitem_map {V : Type} (ks : list pyobj) (g : pyobj → V) (k : pyobj) :
  dict_getitem (map (λ k', (k', g k')) ks) k
  = if decide (k ∈ ks) then Some (g k) else None.
Proof.
  induction ks as [|k' ks IH]; simpl; [done|].
  destruct (py_eq k' k) eqn:Heq.
  - apply py_eq_true in Heq as ->.
    destruct (decide (k ∈ k :: ks)) as [_|Hn]; [done|].
    exfalso. apply Hn. rewrite elem_of_cons. by left.
  - apply py_eq_false in Heq. rewrite IH.
    destruct (decide (k ∈ ks)) as [Hin|Hout].
    + destruct (decide (k ∈ k' :: ks)) as [_|Hn]; [done|].
      exfalso. apply Hn. rewrite elem_of_cons. by right.
    + destruct (decide (k ∈ k' :: ks)) as [[->|Hin]%elem_of_cons|_]; done.
Qed.

Lemma get_building_by_type_getitem (bs : list Building) (k : pyobj) :
  dict_getitem (foldl get_building_by_type_step [] bs) k
  = match filter (λ b, Building_building_type b = k) bs with
    | [] => None
    | b :: group => Some (b :: group)
    end.
Proof.
  rewrite get_building_by_type_closed_form, dict_getitem_map.
  destruct (decide (k ∈ first_seen (map Building_building_type bs)))
    as [Hin|Hout].
  - rewrite elem_of_first_seen in Hin.
    apply list_elem_of_In, in_map_iff in Hin as (b & Hb & Hin%list_elem_of_In).
    assert (b ∈ filter (λ b, Building_building_type b = k) bs) as Hf
      by by apply list_elem_of_filter.
    destruct (filter _ bs); [by apply elem_of_nil in Hf|done].
  - rewrite elem_of_first_seen in Hout. by rewrite filter_type_absent.
Qed.

(** Reading the dictionary of [get_building_by_type()] at the name of a
    type gives the owned buildings of that type, in building-list order,
    when there is one, and is a KeyError when there is none. *)
Theorem get_building_by_type_getitem_name
    (cc : ConstructionCompany) (t : BuildingType) :
  dict_getitem (ConstructionCompany_get_building_by_type cc)
    (PyStr (BuildingType_name t))
  = match filter (λ b, Building__building_type b = t)
            (ConstructionCompany__buildings cc) with
    | [] => None
    | b :: group => Some (b :: group)
    end.
Proof.
  unfold ConstructionCompany_get_building_by_type.
  rewrite get_building_by_type_getitem.
  rewrite (list_filter_iff _ (λ b, Building__building_type b = t)); [done|].
  intros b. unfold Building_building_type.
  split; [by intros [= ?%BuildingType_name_inj]|by intros ->].
Qed.

(** The dictionary of [get_building_by_type()] has no empty group and at
    most four groups, one for each member of [BuildingType]. *)
Theorem get_building_by_type_groups_bounded (cc : ConstructionCompany) :
  Forall (λ kv, kv.2 ≠ []) (ConstructionCompany_get_building_by_type cc) ∧
  (length (ConstructionCompany_get_building_by_type cc) ≤ 4)%nat.
Proof.
  unfold ConstructionCompany_get_building_by_type.
  rewrite get_building_by_type_closed_form.
  set (bs := ConstructionCompany__buildings cc). split.
  - apply Forall_forall.
    intros [k g] (k' & [= <- <-] & Hk)%list_elem_of_In%in_map_iff.
    simpl. apply list_elem_of_In in Hk. rewrite elem_of_first_seen in Hk.
    apply list_elem_of_In, in_map_iff in Hk as (b & Hb & Hin%list_elem_of_In).
    intros Hnil.
    assert (b ∈ filter (λ b, Building_building_type b = k') bs) as Hf
      by by apply list_elem_of_filter.
    rewrite Hnil in Hf. by apply elem_of_nil in Hf.
  - rewrite length_map.
    change 4%nat with (length (map (λ t, PyStr (BuildingType_name t))
      [WAREHOUSE; DISTRIBUTION_CENTER; FLEX_SPACE; MANUFACTURING_BUILDING])).
    apply submseteq_length, NoDup_submseteq; [apply NoDup_first_seen|].
    intros k Hk. rewrite elem_of_first_seen in Hk.
    apply list_elem_of_In, in_map_iff in Hk as (b & <- & _).
    apply list_elem_of_In, in_map_iff.
    exists (Building__building_type b). split; [done|].
    destruct (Building__building_type b); simpl; auto.
Qed.

(** [add_building] followed by [get_building_by_type()]: the new building
    is the last one of the group of its type, which is a new last group
    when the type was not there; every other group is as before. *)
Theorem add_building_then_get_building_by_type
    (cc : ConstructionCompany) (b : Building) (k : pyobj) :
  let d := ConstructionCompany_get_building_by_type cc in
  let d' := ConstructionCompany_get_building_by_type
              (ConstructionCompany_add_building cc b) in
  map fst d'
    = (if decide (Building_building_type b ∈ map fst d) then map fst d
       else map fst d ++ [Building_building_type b]) ∧
  dict_getitem d' (Building_building_type b)
    = Some (default [] (dict_getitem d (Building_building_type b)) ++ [b]) ∧
  (k ≠ Building_building_type b → dict_getitem d' k = dict_getitem d k).
Proof.
  intros d d'. unfold d, d', ConstructionCompany_get_building_by_type. simpl.
  set (bs := ConstructionCompany__buildings cc).
  split; [|split].
  - rewrite !get_building_by_type_closed_form, !map_map. simpl.
    rewrite !map_id, map_app. simpl. by rewrite first_seen_snoc,
      (decide_ext _ _ _ _ (elem_of_first_seen _ _)).
  - rewrite !get_building_by_type_getitem, filter_app, filter_cons_True by done.
    rewrite filter_nil. by destruct (filter _ bs).
  - intros Hk.
    rewrite !get_building_by_type_getitem, filter_app, filter_cons_False
      by congruence.
    by rewrite filter_nil, app_nil_r.
Qed.

(** ** More on [assign_employee_to_building] *)

Lemma next_or_None_cases (id : Z) (l : list Employee) :
  (∃ pre e post, l = pre ++ e :: post ∧ employee_id e = id ∧
     Forall (λ e', employee_id e' ≠ id) pre ∧
     next_or_None (λ emp, employee_id emp = id) l = Some e) ∨
  (Forall (λ e', employee_id e' ≠ id) l ∧
     next_or_None (λ emp, employee_id emp = id) l = None).
Proof.
  induction l as [|e' l IH].
  - right. by split.
  - destruct (decide (employee_id e' = id)) as [He|He].
    + left. exists [], e', l. repeat split; [done|by constructor|].
      by apply (next_or_None_first id [] l e').
    + destruct IH as [(pre & e & post & -> & Hid & Hpre & Hnext)|[Hall Hnext]].
      * left. exists (e' :: pre), e, post.
        repeat split; [done|by constructor|].
        apply (next_or_None_first id (e' :: pre) post e); [by constructor|done].
      * right. split; [by constructor|].
        apply next_or_None_absent. by constructor.
Qed.

Lemma assign_loop_cons (b : Building) (bs : list Building) (e : Employee)
    (bt : pyobj) :
  assign_loop (b :: bs) e bt
  = if py_eq (Building_building_type b) bt
    then Some (Building_add_employee b e :: bs)
    else cons b <$> assign_loop bs e bt.
Proof. done. Qed.

Lemma assign_loop_cases (bs : list Building) (e : Employee) (bt : pyobj) :
  (∃ pre b post, bs = pre ++ b :: post ∧
     Forall (λ b', Building_building_type b' ≠ bt) pre ∧
     Building_building_type b = bt ∧
     assign_loop bs e bt = Some (pre ++ Building_add_employee b e :: post)) ∨
  (Forall (λ b', Building_building_type b' ≠ bt) bs ∧
     assign_loop bs e bt = None).
Proof.
  induction bs as [|b bs IH].
  - right. by split.
  - rewrite assign_loop_cons.
    destruct (py_eq (Building_building_type b) bt) eqn:Heq.
    + apply py_eq_true in Heq. left. exists [], b, bs. by repeat split.
    + apply py_eq_false in Heq.
      destruct IH as [(pre & b' & post & -> & Hpre & Hb' & ->)|[Hall ->]].
      * left. exists (b :: pre), b', post. repeat split; try done.
        by constructor.
      * right. split; [by constructor|done].
Qed.

(** When [assign_employee_to_building] returns.  The call returns exactly
    when some owned building holds an employee with the id and the second
    argument is the name string of the type of some owned building. *)
Theorem assign_employee_to_building_returns_iff
    (cc : ConstructionCompany) (id : Z) (building_type : pyobj) :
  (∃ cc', ConstructionCompany_assign_employee_to_building cc id building_type
          = Return cc') ↔
  (∃ b e, b ∈ ConstructionCompany__buildings cc ∧
          e ∈ Building__employees b ∧ employee_id e = id) ∧
  (∃ b, b ∈ ConstructionCompany__buildings cc ∧
        building_type = PyStr (BuildingType_name (Building__building_type b))).
Proof.
  unfold ConstructionCompany_assign_employee_to_building.
  rewrite ConstructionCompany_employees_concat.
  set (bs := ConstructionCompany__buildings cc).
  destruct (next_or_None_cases id (concat (map Building__employees bs)))
    as [(epre & e & epost & Hes & Hid & Hepre & ->)|[Hall ->]].
  - assert (∃ b e, b ∈ bs ∧ e ∈ Building__employees b ∧ employee_id e = id)
      as Hemp.
    { assert (In e (concat (map Building__employees bs))) as Hin
        by (rewrite Hes; apply in_elt).
      apply in_concat in Hin as (es & Hes' & Hin).
      apply in_map_iff in Hes' as (b & <- & Hb).
      exists b, e. by rewrite !list_elem_of_In. }
    destruct (assign_loop_cases bs e building_type)
      as [(pre & b & post & Hbs & Hpre & Hb & ->)|[Hnone ->]].
    + split; [intros _|by eauto]. split; [done|].
      exists b. split; [|done]. rewrite Hbs, elem_of_app, elem_of_cons. auto.
    + split; [by intros [cc' ?]|].
      intros [_ (b & Hb & ->)]. rewrite Forall_forall in Hnone.
      by destruct (Hnone b Hb).
  - split; [by intros [cc' ?]|].
    intros [(b & e & Hb & He & Hid) _]. rewrite Forall_forall in Hall.
    destruct (Hall e); [|done].
    apply list_elem_of_In, in_concat. exists (Building__employees b).
    split; [apply in_map|]; by apply list_elem_of_In.
Qed.

(** On the records, where every building has an employee list of its own,
    a call of [assign_employee_to_building] that returns has appended the
    first employee with the id, in the order of the derived [employees], to
    the first building whose [building_type] equals the second argument, and
    has left the rest as it was.  Buildings that share a list object are
    treated on the store, further down. *)
Lemma assign_employee_to_building_on_records
    (cc cc' : ConstructionCompany) (id : Z) (building_type : pyobj) :
  ConstructionCompany_assign_employee_to_building cc id building_type
    = Return cc' →
  ∃ epre e epost pre b post,
    ConstructionCompany_employees cc = epre ++ e :: epost ∧
    Forall (λ e', employee_id e' ≠ id) epre ∧ employee_id e = id ∧
    ConstructionCompany__buildings cc = pre ++ b :: post ∧
    Forall (λ b', Building_building_type b' ≠ building_type) pre ∧
    Building_building_type b = building_type ∧
    ConstructionCompany__buildings cc'
      = pre ++ Building_add_employee b e :: post ∧
    ConstructionCompany__company_name cc'
      = ConstructionCompany__company_name cc ∧
    ConstructionCompany__category cc' = ConstructionCompany__category cc ∧
    ConstructionCompany_employees cc' ≡ₚ e :: ConstructionCompany_employees cc.
Proof.
  unfold ConstructionCompany_assign_employee_to_building.
  destruct (next_or_None_cases id (ConstructionCompany_employees cc))
    as [(epre & e & epost & Hes & Hid & Hepre & ->)|[Hall ->]]; [|done].
  destruct (assign_loop_cases (ConstructionCompany__buildings cc) e building_type)
    as [(pre & b & post & Hbs & Hpre & Hb & ->)|[Hnone ->]]; [|done].
  intros [= <-]. exists epre, e, epost, pre, b, post.
  repeat split; try done.
  rewrite !ConstructionCompany_employees_concat, Hbs. simpl.
  rewrite !map_app, !concat_app. simpl.
  rewrite <- !app_assoc. simpl. rewrite !app_assoc.
  symmetry. apply Permutation_middle.
Qed.

(** When an owned building holds an employee with the id and no owned
    building has a [building_type] equal to the second argument, the call
    raises the ValueError that carries the second argument. *)
Theorem assign_employee_to_building_no_building
    (cc : ConstructionCompany) (id : Z) (building_type : pyobj) (e : Employee) :
  e ∈ ConstructionCompany_employees cc → employee_id e = id →
  Forall (λ b, Building_building_type b ≠ building_type)
    (ConstructionCompany__buildings cc) →
  ConstructionCompany_assign_employee_to_building cc id building_type
  = Raise (building_not_found building_type).
Proof.
  intros Hin Hid Hnone.
  unfold ConstructionCompany_assign_employee_to_building.
  destruct (next_or_None_cases id (ConstructionCompany_employees cc))
    as [(epre & e' & epost & Hes & Hid' & Hepre & ->)|[Hall _]].
  - destruct (assign_loop_cases (ConstructionCompany__buildings cc) e'
                building_type)
      as [(pre & b & post & Hbs & Hpre & Hb & _)|[_ ->]]; [|done].
    rewrite Hbs in Hnone.
    by apply Forall_app in Hnone as [_ [Hnb _]%Forall_cons].
  - rewrite Forall_forall in Hall. by destruct (Hall e Hin).
Qed.

(** The driver's company has no building of type FLEX_SPACE. *)
Lemma assign_employee_to_building_no_building_witness :
  ConstructionCompany_assign_employee_to_building main_construction_company
    3 (PyStr "FLEX_SPACE")
  = Raise (ValueError "No building of type FLEX_SPACE found").
Proof.
  apply (assign_employee_to_building_no_building main_construction_company
           3 (PyStr "FLEX_SPACE") emp3).
  - apply list_elem_of_In. simpl. auto.
  - reflexivity.
  - repeat constructor. discriminate.
Defined.

(** ** The display of an employee *)

(** [Employee.display()] holds a line feed exactly when the name does: the
    renderings of the id and of the income never do.  So the display of an
    employee whose name has no line feed is one line. *)
Theorem Employee_display_line_feed (e : Employee) :
  contains LF (Employee_display e) = contains LF (employee_name e) ∧
  (contains LF (employee_name e) = false →
   splitlines (Employee_display e) = [Employee_display e]).
Proof.
  assert (contains LF (Employee_display e) = contains LF (employee_name e))
    as Heq.
  { unfold Employee_display, employee_name.
    rewrite !contains_app, !str_int_one_line. simpl.
    by rewrite orb_false_r. }
  split; [done|]. intros He.
  rewrite splitlines_no_empty_piece; rewrite split_LF_one_line by congruence;
    [done|by repeat constructor].
Qed.

(** ** The keys of [get_building_by_type] and the test of
    [assign_employee_to_building] *)

(** C7 on the code.  The construction company of the driver owns one
    building, of category [BuildingType.WAREHOUSE].  The dictionary of
    [get_building_by_type()] has that building in a group whose key is the
    string ['WAREHOUSE']: no group is keyed by the building's category, and
    reading the dictionary at [BuildingType.WAREHOUSE], the key that the
    annotation [Dict[BuildingType, List[Building]]] announces, is a
    KeyError. *)
Theorem get_building_by_type_key_is_not_the_category :
  let b := Building_remove_employee main_building "Green Lee" in
  let d := ConstructionCompany_get_building_by_type main_construction_company in
  ConstructionCompany__buildings main_construction_company = [b] ∧
  Building__building_type b = WAREHOUSE ∧
  d = [(PyStr "WAREHOUSE", [b])] ∧
  (∀ g, (PyEnum (Building__building_type b), g) ∉ d) ∧
  dict_getitem d (PyEnum (Building__building_type b)) = None.
Proof.
  simpl. split; [reflexivity|]. split; [reflexivity|].
  split; [reflexivity|]. split; [|reflexivity].
  intros g Hin.
  change (ConstructionCompany_get_building_by_type main_construction_company)
    with [(PyStr "WAREHOUSE", [Building_remove_employee main_building "Green Lee"])]
    in Hin.
  apply list_elem_of_singleton in Hin. discriminate Hin.
Qed.

(** C10. The property [building_type] of a building reads the name of the
    member the building was constructed with, a string, never the member;
    the four names are the identifiers of the members.  So the test
    [building.building_type == building_type] of
    [assign_employee_to_building] holds exactly against that name string and
    fails against every member of [BuildingType], for which the loop finds
    no building; and the keys of the dictionary of [get_building_by_type()]
    are exactly the name strings of the types of the owned buildings, in
    order of first occurrence: the name of the type of every owned building
    is a key, under which the building is found, and no member is a key. *)
Theorem building_type_reads_the_name (b : Building) (cc : ConstructionCompany) :
  let d := ConstructionCompany_get_building_by_type cc in
  Building_building_type b = PyStr (BuildingType_name (Building__building_type b)) ∧
  map BuildingType_name
      [WAREHOUSE; DISTRIBUTION_CENTER; FLEX_SPACE; MANUFACTURING_BUILDING]
    = ["WAREHOUSE"; "DISTRIBUTION_CENTER"; "FLEX_SPACE";
       "MANUFACTURING_BUILDING"]%string ∧
  (∀ x, py_eq (Building_building_type b) x = true
        ↔ x = PyStr (BuildingType_name (Building__building_type b))) ∧
  (∀ t, Building_building_type b ≠ PyEnum t) ∧
  (∀ t, py_eq (Building_building_type b) (PyEnum t) = false) ∧
  (∀ bs e t, assign_loop bs e (PyEnum t) = None) ∧
  map fst d
    = first_seen (map (λ b', PyStr (BuildingType_name (Building__building_type b')))
                    (ConstructionCompany__buildings cc)) ∧
  (∀ k, k ∈ map fst d ↔
        ∃ b', b' ∈ ConstructionCompany__buildings cc ∧
              k = PyStr (BuildingType_name (Building__building_type b'))) ∧
  (∀ b', b' ∈ ConstructionCompany__buildings cc →
         ∃ g, dict_getitem d
                (PyStr (BuildingType_name (Building__building_type b'))) = Some g ∧
              b' ∈ g) ∧
  (∀ t, (PyEnum t ∉ map fst d) ∧ dict_getitem d (PyEnum t) = None).
Proof.
  intros d.
  assert (map fst d = first_seen (map Building_building_type
                                    (ConstructionCompany__buildings cc))) as Hkeys.
  { unfold d, ConstructionCompany_get_building_by_type.
    rewrite get_building_by_type_closed_form, map_map. simpl. by rewrite map_id. }
  assert (∀ k, k ∈ map fst d ↔
            ∃ b', b' ∈ ConstructionCompany__buildings cc ∧
                  k = PyStr (BuildingType_name (Building__building_type b')))
    as Hiff.
  { intros k. rewrite Hkeys, elem_of_first_seen, list_elem_of_In, in_map_iff.
    split.
    - intros (b' & <- & Hb'). exists b'. by rewrite list_elem_of_In.
    - intros (b' & Hb' & ->). exists b'. by rewrite <- list_elem_of_In. }
  assert (∀ t, PyEnum t ∉ map fst d) as Hmember.
  { intros t Hin. apply Hiff in Hin as (b' & _ & [=]). }
  split; [done|]. split; [done|].
  split; [intros x; by rewrite py_eq_true|].
  split; [done|]. split; [done|]. split; [apply assign_loop_enum|].
  split; [done|]. split; [done|]. split.
  - intros b' Hb'. unfold d, ConstructionCompany_get_building_by_type.
    rewrite get_building_by_type_getitem.
    assert (b' ∈ filter (λ b0, Building_building_type b0
                               = PyStr (BuildingType_name (Building__building_type b')))
                   (ConstructionCompany__buildings cc)) as Hf
      by by apply list_elem_of_filter.
    destruct (filter _ _) as [|b0 g]; [by apply elem_of_nil in Hf|].
    by exists (b0 :: g).
  - intros t. split; [done|]. by apply dict_getitem_absent.
Qed.

(** ** [assign_employee_to_building] on shared list objects *)

Lemma store_employees_concat (σ : gmap nat (list Employee))
    (slots : list BuildingSlot) :
  store_employees σ slots
  = concat (map (λ slot, list_at σ (slot_employees slot)) slots).
Proof.
  unfold store_employees.
  assert (∀ init,
            foldl (λ all_employees slot,
                     all_employees ++ Building_employees (slot_building σ slot))
              init slots
            = init ++ concat (map (λ slot, list_at σ (slot_employees slot)) slots))
    as Hfold.
  { induction slots as [|slot slots IH]; intros init; simpl.
    - by rewrite app_nil_r.
    - by rewrite IH, <- app_assoc. }
  apply (Hfold []).
Qed.

(** The derived employees of the records read from the store are the
    derived employees on the store. *)
Lemma store_employees_records (σ : gmap nat (list Employee))
    (slots : list BuildingSlot) (name : string) (category : ConstructionCompanyType) :
  ConstructionCompany_employees
    (mkConstructionCompany name category (map (slot_building σ) slots))
  = store_employees σ slots.
Proof.
  rewrite ConstructionCompany_employees_concat, store_employees_concat. simpl.
  by rewrite map_map.
Qed.

Lemma list_at_slot_add_employee (σ : gmap nat (list Employee))
    (slot : BuildingSlot) (e : Employee) (l : nat) :
  list_at (slot_add_employee σ slot e) l
  = if decide (l = slot_employees slot) then list_at σ l ++ [e] else list_at σ l.
Proof.
  unfold list_at, slot_add_employee.
  destruct (decide (l = slot_employees slot)) as [->|Hne].
  - by rewrite lookup_total_insert_eq.
  - by rewrite lookup_total_insert_ne.
Qed.

Lemma store_assign_loop_cons (σ : gmap nat (list Employee)) (slot : BuildingSlot)
    (slots : list BuildingSlot) (e : Employee) (bt : pyobj) :
  store_assign_loop σ (slot :: slots) e bt
  = if py_eq (Building_building_type (slot_building σ slot)) bt
    then Some (slot_add_employee σ slot e)
    else store_assign_loop σ slots e bt.
Proof. done. Qed.

Lemma store_assign_loop_cases (σ : gmap nat (list Employee))
    (slots : list BuildingSlot) (e : Employee) (bt : pyobj) :
  (∃ pre slot post, slots = pre ++ slot :: post ∧
     Forall (λ s, Building_building_type (slot_building σ s) ≠ bt) pre ∧
     Building_building_type (slot_building σ slot) = bt ∧
     store_assign_loop σ slots e bt = Some (slot_add_employee σ slot e)) ∨
  (Forall (λ s, Building_building_type (slot_building σ s) ≠ bt) slots ∧
     store_assign_loop σ slots e bt = None).
Proof.
  induction slots as [|slot slots IH].
  - right. by split.
  - rewrite store_assign_loop_cons.
    destruct (py_eq (Building_building_type (slot_building σ slot)) bt) eqn:Heq.
    + apply py_eq_true in Heq. left. exists [], slot, slots. by repeat split.
    + apply py_eq_false in Heq.
      destruct IH as [(pre & s & post & -> & Hpre & Hs & ->)|[Hall ->]].
      * left. exists (slot :: pre), s, post. repeat split; try done.
        by constructor.
      * right. split; [by constructor|done].
Qed.

(** The employees gained by the aggregate: one for every slot on the list
    object that was appended to. *)
Lemma store_employees_length_add (σ : gmap nat (list Employee))
    (slot : BuildingSlot) (e : Employee) (slots : list BuildingSlot) :
  length (store_employees (slot_add_employee σ slot e) slots)
  = (length (store_employees σ slots)
     + length (filter (λ s, slot_employees s = slot_employees slot) slots))%nat.
Proof.
  rewrite !store_employees_concat.
  induction slots as [|s slots IH]; simpl; [done|].
  rewrite !length_app, IH, list_at_slot_add_employee, filter_cons.
  destruct (decide (slot_employees s = slot_employees slot)); simpl.
  - rewrite length_app. simpl. lia.
  - lia.
Qed.

Lemma list_at_other (σ : gmap nat (list Employee)) (slot : BuildingSlot)
    (e : Employee) (slots : list BuildingSlot) :
  Forall (λ s, slot_employees s ≠ slot_employees slot) slots →
  map (λ s, list_at (slot_add_employee σ slot e) (slot_employees s)) slots
  = map (λ s, list_at σ (slot_employees s)) slots.
Proof.
  induction 1 as [|s slots Hs _ IH]; simpl; [done|].
  by rewrite IH, list_at_slot_add_employee, decide_False.
Qed.

(** Slots on other list objects show what they showed. *)
Lemma slot_building_other (σ : gmap nat (list Employee)) (slot : BuildingSlot)
    (e : Employee) (slots : list BuildingSlot) :
  Forall (λ s, slot_employees s ≠ slot_employees slot) slots →
  map (slot_building (slot_add_employee σ slot e)) slots
  = map (slot_building σ) slots.
Proof.
  induction 1 as [|s slots Hs _ IH]; simpl; [done|].
  rewrite IH. f_equal. unfold slot_building.
  by rewrite list_at_slot_add_employee, decide_False.
Qed.

(** What a call of [assign_employee_to_building] that returns has done.
    The first employee with the id, in the order of the derived
    [employees], is appended to the list object of the first building whose
    [building_type] equals the second argument, and no other list object
    changes.  Every owned building on that list object shows the employee
    as its last one, the other buildings show what they showed, and the
    derived [employees] gain one entry for each owned building on that list
    object.  When no two owned buildings share a list object, only the
    building found by the loop changes and the derived [employees] are the
    old ones and the employee once more. *)
Theorem assign_employee_to_building_store_effect
    (σ σ' : gmap nat (list Employee)) (slots : list BuildingSlot)
    (id : Z) (building_type : pyobj) :
  store_assign_employee_to_building σ slots id building_type = Return σ' →
  ∃ epre e epost pre slot post,
    store_employees σ slots = epre ++ e :: epost ∧
    Forall (λ e', employee_id e' ≠ id) epre ∧ employee_id e = id ∧
    slots = pre ++ slot :: post ∧
    Forall (λ s, Building_building_type (slot_building σ s) ≠ building_type) pre ∧
    Building_building_type (slot_building σ slot) = building_type ∧
    σ' = <[slot_employees slot := list_at σ (slot_employees slot) ++ [e]]> σ ∧
    (∀ s, slot_building σ' s
          = if decide (slot_employees s = slot_employees slot)
            then Building_add_employee (slot_building σ s) e
            else slot_building σ s) ∧
    length (store_employees σ' slots)
      = (length (store_employees σ slots)
         + length (filter (λ s, slot_employees s = slot_employees slot) slots))%nat ∧
    (NoDup (map slot_employees slots) →
     map (slot_building σ') slots
       = map (slot_building σ) pre
         ++ Building_add_employee (slot_building σ slot) e
         :: map (slot_building σ) post ∧
     store_employees σ' slots ≡ₚ e :: store_employees σ slots).
Proof.
  unfold store_assign_employee_to_building.
  destruct (next_or_None_cases id (store_employees σ slots))
    as [(epre & e & epost & Hes & Hid & Hepre & ->)|[Hall ->]]; [|done].
  destruct (store_assign_loop_cases σ slots e building_type)
    as [(pre & slot & post & Hslots & Hpre & Hslot & ->)|[Hnone ->]]; [|done].
  intros [= <-]. exists epre, e, epost, pre, slot, post.
  assert (∀ s, slot_building (slot_add_employee σ slot e) s
               = if decide (slot_employees s = slot_employees slot)
                 then Building_add_employee (slot_building σ s) e
                 else slot_building σ s) as Hshow.
  { intros s. unfold slot_building, Building_add_employee. simpl.
    rewrite list_at_slot_add_employee. by destruct (decide _). }
  assert (NoDup (map slot_employees slots) →
          Forall (λ s, slot_employees s ≠ slot_employees slot) pre ∧
          Forall (λ s, slot_employees s ≠ slot_employees slot) post) as Hother.
  { rewrite Hslots, map_app. simpl. rewrite NoDup_app, NoDup_cons.
    intros (_ & Hdisj & Hout & _). split; apply Forall_forall; intros s Hs Heq.
    - apply (Hdisj (slot_employees s)).
      + apply list_elem_of_In, in_map. by apply list_elem_of_In.
      + rewrite Heq, elem_of_cons. by left.
    - apply Hout. rewrite <- Heq.
      apply list_elem_of_In, in_map. by apply list_elem_of_In. }
  split_and!; try done.
  - apply store_employees_length_add.
  - intros [Hpre' Hpost']%Hother. split.
    + rewrite Hslots, !map_app. simpl.
      rewrite !slot_building_other by done.
      by rewrite Hshow, decide_True.
    + rewrite !store_employees_concat, Hslots, !map_app, !concat_app.
      rewrite !(map_cons _ slot), !concat_cons.
      rewrite !list_at_other by done.
      rewrite list_at_slot_add_employee, decide_True by done.
      rewrite <- !app_assoc. simpl. rewrite !app_assoc.
      symmetry. apply Permutation_middle.
Qed.

(** Two buildings on one list object: the call appends once, both
    buildings show "Carl Hopper" twice, and the derived [employees] grow
    from two entries to four. *)
Lemma assign_employee_to_building_store_effect_witness :
  let σ' : gmap nat (list Employee) :=
    {[ 0%nat := [mkEmployee 3 "Carl Hopper" 55000;
                 mkEmployee 3 "Carl Hopper" 55000] ]} in
  store_assign_employee_to_building shared_store shared_slots 3
    (PyStr "WAREHOUSE") = Return σ' ∧
  map (λ s, Building__employees (slot_building σ' s)) shared_slots
    = [[emp3; emp3]; [emp3; emp3]] ∧
  length (store_employees shared_store shared_slots) = 2%nat ∧
  length (store_employees σ' shared_slots) = 4%nat.
Proof.
  intros σ'.
  assert (store_assign_employee_to_building shared_store shared_slots 3
            (PyStr "WAREHOUSE") = Return σ') as Hcall by reflexivity.
  split; [exact Hcall|]. split; [reflexivity|]. split; [reflexivity|].
  destruct (assign_employee_to_building_store_effect shared_store σ'
              shared_slots 3 (PyStr "WAREHOUSE") Hcall)
    as (epre & e & epost & pre & slot & post & _ & _ & _ & Hslots & _ & _ & _
        & _ & Hlen & _).
  rewrite Hlen.
  assert (slot_employees slot = 0%nat) as ->.
  { assert (slot ∈ shared_slots) as Hin
      by (rewrite Hslots, elem_of_app, elem_of_cons; auto).
    unfold shared_slots in Hin.
    apply elem_of_cons in Hin as [->|Hin]; [done|].
    by apply list_elem_of_singleton in Hin as ->. }
  reflexivity.
Defined.

(** The loop on the store and the loop on the records read from the store
    stop at the same building. *)
Lemma store_assign_loop_records (σ : gmap nat (list Employee))
    (slots : list BuildingSlot) (e : Employee) (bt : pyobj) :
  match store_assign_loop σ slots e bt,
        assign_loop (map (slot_building σ) slots) e bt with
  | None, None => True
  | Some σ', Some bs' =>
      ∃ pre slot post,
        slots = pre ++ slot :: post ∧ σ' = slot_add_employee σ slot e ∧
        bs' = map (slot_building σ) pre
              ++ Building_add_employee (slot_building σ slot) e
              :: map (slot_building σ) post
  | _, _ => False
  end.
Proof.
  induction slots as [|slot slots IH]; [done|].
  rewrite store_assign_loop_cons. rewrite map_cons, assign_loop_cons.
  destruct (py_eq (Building_building_type (slot_building σ slot)) bt).
  - by exists [], slot, slots.
  - destruct (store_assign_loop σ slots e bt) as [σ'|],
      (assign_loop (map (slot_building σ) slots) e bt) as [bs'|];
      simpl; try done.
    destruct IH as (pre & s & post & -> & -> & ->).
    by exists (slot :: pre), s, post.
Qed.

(** Sharing of list objects does not change whether
    [assign_employee_to_building] returns, nor which error it raises: the
    call on the store and the call on the records read from the store end
    alike.  When no two owned buildings share a list object they also end in
    the same buildings. *)
Theorem store_assign_agrees_with_records
    (σ : gmap nat (list Employee)) (slots : list BuildingSlot)
    (name : string) (category : ConstructionCompanyType)
    (id : Z) (building_type : pyobj) :
  match store_assign_employee_to_building σ slots id building_type,
        ConstructionCompany_assign_employee_to_building
          (mkConstructionCompany name category (map (slot_building σ) slots))
          id building_type with
  | Raise e, Raise e' => e = e'
  | Return σ', Return cc' =>
      ConstructionCompany__company_name cc' = name ∧
      ConstructionCompany__category cc' = category ∧
      (NoDup (map slot_employees slots) →
       ConstructionCompany__buildings cc' = map (slot_building σ') slots)
  | _, _ => False
  end.
Proof.
  unfold store_assign_employee_to_building,
    ConstructionCompany_assign_employee_to_building.
  rewrite store_employees_records.
  destruct (next_or_None _ (store_employees σ slots)) as [e|]; [|done].
  cbn [ConstructionCompany__buildings ConstructionCompany__company_name
       ConstructionCompany__category].
  pose proof (store_assign_loop_records σ slots e building_type) as Hloops.
  destruct (store_assign_loop σ slots e building_type) as [σ'|],
    (assign_loop (map (slot_building σ) slots) e building_type) as [bs'|];
    try done.
  destruct Hloops as (pre & slot & post & -> & -> & ->).
  split; [done|]. split; [done|].
  rewrite map_app. simpl. rewrite NoDup_app, NoDup_cons.
  intros (_ & Hdisj & Hout & _).
  rewrite map_app. simpl. f_equal; [|f_equal].
  - symmetry. apply slot_building_other, Forall_forall. intros s Hs Heq.
    apply (Hdisj (slot_employees s)).
    + apply list_elem_of_In, in_map. by apply list_elem_of_In.
    + rewrite Heq, elem_of_cons. by left.
  - unfold slot_building, Building_add_employee. simpl.
    by rewrite list_at_slot_add_employee, decide_True.
  - symmetry. apply slot_building_other, Forall_forall. intros s Hs Heq.
    apply Hout. rewrite <- Heq.
    apply list_elem_of_In, in_map. by apply list_elem_of_In.
Qed.
